(** * PHOS raw-data quality-control task: a shallow embedding of
      [Modules/PHOS/src/RawQcTask.cxx]

    The task keeps a bank of ROOT histograms and updates it cycle by cycle.
    The embedding follows the source function by function:
    [startOfCycle], [monitorData], [endOfCycle], [endOfActivity], [reset],
    [FillPhysicsHistograms], [FillPedestalHistograms], [FillLEDHistograms],
    [InitHistograms] and the three [Create...Histograms].

    Conventions of the model.
    - Bin contents are single-precision numbers in ROOT ([TH1F], [TH2F]); here
      they are exact rationals ([Qc]), so the rounding of the machine
      arithmetic is left out: an equality proved below is an equality of the
      exact values.
    - [int] and [short] values are integers ([Z]); the conversions the source
      performs (truncation of a floating value, narrowing to [short], the
      32-bit shift) are written out.
    - A histogram pointer of [mHist1D]/[mHist2D] is an entry of a finite map;
      a null pointer is a missing entry.  The task functions return
      [option]: [None] stands for an execution that leaves defined behaviour
      (a null histogram dereferenced, a span or vector indexed out of range,
      a shift by an invalid count). *)

From Stdlib Require Import ZArith QArith Qcanon.
From stdpp Require Import base option numbers list list_numbers countable gmap.

Local Open Scope Z_scope.

(** ** Numbers *)

(** Conversion of a floating value to [int]: the fractional part is dropped. *)
Definition Qc_trunc (q : Qc) : Z := Z.quot (Qnum q) (Z.pos (Qden q)).

(** Two's-complement value of the low [w] bits of [z]. *)
Definition wrap (w : Z) (z : Z) : Z := (z + 2 ^ (w - 1)) mod 2 ^ w - 2 ^ (w - 1).

Definition int_range (z : Z) : Prop := - 2 ^ 31 <= z < 2 ^ 31.

Definition half : Qc := Q2Qc (1 # 2).

(** A loop over a list whose body may fail. *)
Fixpoint foldM {S A : Type} (f : S -> A -> option S) (s : S) (l : list A) : option S :=
  match l with
  | [] => Some s
  | a :: l' => match f s a with Some s' => foldM f s' l' | None => None end
  end.

(** ** ROOT histograms

    ROOT is a library outside the repository; the definitions below follow
    its documented behaviour for fixed-bin histograms: bin 0 of an axis is
    the underflow bin, bin [fNbins + 1] the overflow bin, and a
    two-dimensional histogram keeps its cells in one array, cell
    [(binx, biny)] at index [binx + (nbinsx + 2) * biny]. *)

Module TAxis.

Record t : Type := mk { fNbins : Z; fXmin : Qc; fXmax : Qc }.

Definition FindBin (a : t) (x : Qc) : Z :=
  if decide (x < fXmin a)%Qc then 0
  else if decide (x < fXmax a)%Qc then
    1 + Qc_trunc (Qc_of_Z (fNbins a) * (x - fXmin a) / (fXmax a - fXmin a))%Qc
  else fNbins a + 1.

(** An axis as the task builds them: at least one bin over a non-empty range. *)
Definition wf (a : t) : Prop := 1 <= fNbins a /\ (fXmin a < fXmax a)%Qc.

End TAxis.

(** Cell-wise operations of [TH1::Multiply] and [TH1::Divide]; a cell whose
    divisor is zero is set to zero by [Divide]. *)
Definition mul_cell (c0 c1 : Qc) : Qc := (c0 * c1)%Qc.
Definition div_cell (c0 c1 : Qc) : Qc :=
  if decide (c1 = 0%Qc) then 0%Qc else (c0 / c1)%Qc.

Module TH1F.

Record t : Type := mk {
  fXaxis : TAxis.t;
  fArray : list Qc;
  fMinimum : option Qc;
  fMaximum : option Qc }.

Definition fNcells (h : t) : Z := TAxis.fNbins (fXaxis h) + 2.

Definition with_array (h : t) (a : list Qc) : t :=
  mk (fXaxis h) a (fMinimum h) (fMaximum h).

Definition new (nbins : Z) (xlow xup : Qc) : t :=
  mk (TAxis.mk nbins xlow xup) (replicate (Z.to_nat (nbins + 2)) 0%Qc) None None.

Definition wf (h : t) : Prop :=
  TAxis.wf (fXaxis h) /\ length (fArray h) = Z.to_nat (fNcells h).

Definition FindBin (h : t) (x : Qc) : Z := TAxis.FindBin (fXaxis h) x.

Definition RetrieveBinContent (h : t) (bin : Z) : Qc :=
  if decide (0 <= bin) then default 0%Qc (fArray h !! Z.to_nat bin) else 0%Qc.

Definition GetBinContent (h : t) (bin : Z) : Qc :=
  let bin := if decide (bin < 0) then 0 else bin in
  let bin := if decide (bin >= fNcells h) then fNcells h - 1 else bin in
  RetrieveBinContent h bin.

Definition UpdateBinContent (h : t) (bin : Z) (c : Qc) : t :=
  if decide (0 <= bin) then with_array h (<[Z.to_nat bin := c]> (fArray h)) else h.

(** [SetBinContent] ignores a bin outside the array (the axes cannot extend). *)
Definition SetBinContent (h : t) (bin : Z) (c : Qc) : t :=
  if decide (0 <= bin < fNcells h) then UpdateBinContent h bin c else h.

(** [fArray[bin] += w]; the callers pass the result of [FindBin]. *)
Definition AddBinContent (h : t) (bin : Z) (w : Qc) : t :=
  if decide (0 <= bin) then
    with_array h (alter (fun c => (c + w)%Qc) (Z.to_nat bin) (fArray h))
  else h.

(** [Fill(x)]: one more entry in the bin of [x], underflow and overflow
    included. *)
Definition Fill (h : t) (x : Qc) : t := AddBinContent h (FindBin h x) 1%Qc.

Definition Reset (h : t) : t := with_array h (replicate (length (fArray h)) 0%Qc).

Definition SetMinimum (h : t) (m : Qc) : t :=
  mk (fXaxis h) (fArray h) (Some m) (fMaximum h).

End TH1F.

Module TH2F.

Record t : Type := mk {
  fXaxis : TAxis.t;
  fYaxis : TAxis.t;
  fArray : list Qc;
  fMinimum : option Qc;
  fMaximum : option Qc }.

Definition fNcells (h : t) : Z :=
  (TAxis.fNbins (fXaxis h) + 2) * (TAxis.fNbins (fYaxis h) + 2).

Definition with_array (h : t) (a : list Qc) : t :=
  mk (fXaxis h) (fYaxis h) a (fMinimum h) (fMaximum h).

Definition new (nx : Z) (xlow xup : Qc) (ny : Z) (ylow yup : Qc) : t :=
  mk (TAxis.mk nx xlow xup) (TAxis.mk ny ylow yup)
     (replicate (Z.to_nat ((nx + 2) * (ny + 2))) 0%Qc) None None.

Definition wf (h : t) : Prop :=
  TAxis.wf (fXaxis h) /\ TAxis.wf (fYaxis h) /\
  length (fArray h) = Z.to_nat (fNcells h).

(** Global index of cell [(binx, biny)]; each coordinate is clamped to the
    axis, underflow and overflow included. *)
Definition GetBin (h : t) (binx biny : Z) : Z :=
  let ofx := TAxis.fNbins (fXaxis h) + 1 in
  let ofy := TAxis.fNbins (fYaxis h) + 1 in
  let binx := if decide (binx < 0) then 0 else if decide (binx > ofx) then ofx else binx in
  let biny := if decide (biny < 0) then 0 else if decide (biny > ofy) then ofy else biny in
  binx + (TAxis.fNbins (fXaxis h) + 2) * biny.

Definition FindBin (h : t) (x y : Qc) : Z :=
  TAxis.FindBin (fXaxis h) x
  + (TAxis.fNbins (fXaxis h) + 2) * TAxis.FindBin (fYaxis h) y.

Definition RetrieveBinContent (h : t) (bin : Z) : Qc :=
  if decide (0 <= bin) then default 0%Qc (fArray h !! Z.to_nat bin) else 0%Qc.

Definition GetBinContent (h : t) (bin : Z) : Qc :=
  let bin := if decide (bin < 0) then 0 else bin in
  let bin := if decide (bin >= fNcells h) then fNcells h - 1 else bin in
  RetrieveBinContent h bin.

Definition GetBinContent2 (h : t) (binx biny : Z) : Qc :=
  GetBinContent h (GetBin h binx biny).

Definition UpdateBinContent (h : t) (bin : Z) (c : Qc) : t :=
  if decide (0 <= bin) then with_array h (<[Z.to_nat bin := c]> (fArray h)) else h.

Definition SetBinContent (h : t) (bin : Z) (c : Qc) : t :=
  if decide (0 <= bin < fNcells h) then UpdateBinContent h bin c else h.

Definition AddBinContent (h : t) (bin : Z) (w : Qc) : t :=
  if decide (0 <= bin) then
    with_array h (alter (fun c => (c + w)%Qc) (Z.to_nat bin) (fArray h))
  else h.

(** [Fill(x, y, w)] adds [w] to the cell of [(x, y)], underflow and overflow
    cells included, and returns the global bin, or [-1] when the cell is an
    underflow or overflow cell. *)
Definition Fill (h : t) (x y w : Qc) : t * Z :=
  let binx := TAxis.FindBin (fXaxis h) x in
  let biny := TAxis.FindBin (fYaxis h) y in
  let bin := biny * (TAxis.fNbins (fXaxis h) + 2) + binx in
  let h' := AddBinContent h bin w in
  if decide (binx = 0 \/ binx > TAxis.fNbins (fXaxis h)) then (h', -1)
  else if decide (biny = 0 \/ biny > TAxis.fNbins (fYaxis h)) then (h', -1)
  else (h', bin).

(** Two histograms can be combined when they have the same numbers of bins. *)
Definition same_bins (h h1 : t) : Prop :=
  TAxis.fNbins (fXaxis h) = TAxis.fNbins (fXaxis h1) /\
  TAxis.fNbins (fYaxis h) = TAxis.fNbins (fYaxis h1).

#[global] Instance same_bins_dec h h1 : Decision (same_bins h h1).
Proof. unfold same_bins. apply _. Defined.

(** Cell [i] of [h] becomes [op (h[i]) (h1[i])], for every cell of [h]. *)
Definition cellwise (op : Qc -> Qc -> Qc) (h h1 : t) : t :=
  with_array h
    (imap (fun i c0 => op c0 (default 0%Qc (fArray h1 !! i))) (fArray h)).

(** [h->Multiply(h1)] and [h->Divide(h1)]: a null [h1] or a different number
    of bins is reported and leaves [h] as it is. *)
Definition Multiply (h : t) (h1 : option t) : t :=
  match h1 with
  | Some h1 => if decide (same_bins h h1) then cellwise mul_cell h h1 else h
  | None => h
  end.

Definition Divide (h : t) (h1 : option t) : t :=
  match h1 with
  | Some h1 => if decide (same_bins h h1) then cellwise div_cell h h1 else h
  | None => h
  end.

Definition Reset (h : t) : t := with_array h (replicate (length (fArray h)) 0%Qc).

Definition SetMinimum (h : t) (m : Qc) : t :=
  mk (fXaxis h) (fYaxis h) (fArray h) (Some m) (fMaximum h).

Definition SetMaximum (h : t) (m : Qc) : t :=
  mk (fXaxis h) (fYaxis h) (fArray h) (fMinimum h) (Some m).

End TH2F.

(** ** Inputs of one cycle *)

(** A cell of [o2::phos::Cell]: [getAbsId], [getEnergy], [getTime],
    [getHighGain]. *)
Record Cell : Type := mkCell {
  getAbsId : Z;
  getEnergy : Qc;
  getTime : Qc;
  getHighGain : bool }.

Record TriggerRecord : Type := mkTriggerRecord {
  getFirstEntry : Z;
  getNumberOfObjects : Z }.

(** A hardware error of [o2::phos::RawReaderError]. *)
Record RawReaderError : Type := mkRawReaderError {
  getFEC : Z;
  getDDL : Z;
  getError : Z }.

(** What [monitorData] reads from the processing context: the inputs
    [rawerr], [fitquality], [cells], [cellstr], and the bad-channel map that
    the condition database returns ([None]: no map), as its [isChannelGood]. *)
Record ProcessingContext : Type := mkContext {
  rawerr : list RawReaderError;
  badmap : option (Z -> bool);
  fitquality : list Z;
  cells_in : list Cell;
  cellstr_in : list TriggerRecord }.

(** ** The histogram bank *)

(** The families of [mHist2D] and [mHist1D].  The header that gives the
    enumerators their values is not modelled: member [mod] of a family is
    the slot [(family, mod)], so [mHist2D[kHGmeanM1 + mod]] is
    [(kHGmeanM1, mod)]. *)
Inductive Hist2D : Type :=
  | kErrorNumber | kErrorType | kChi2M1 | kChi2NormM1
  | kHGmeanM1 | kHGrmsM1 | kHGoccupM1 | kLGmeanM1 | kLGrmsM1 | kLGoccupM1
  | kCellOccupM1 | kCellEM1 | kTimeEM1 | kLEDNpeaksM1.

Inductive Hist1D : Type :=
  | kBadMapSummary
  | kHGmeanSummaryM1 | kHGrmsSummaryM1 | kLGmeanSummaryM1 | kLGrmsSummaryM1
  | kCellSpM1.

#[global] Instance Hist2D_eq_dec : EqDecision Hist2D.
Proof. solve_decision. Defined.

#[global] Instance Hist1D_eq_dec : EqDecision Hist1D.
Proof. solve_decision. Defined.

Definition Hist2D_code (k : Hist2D) : nat :=
  match k with
  | kErrorNumber => 0 | kErrorType => 1 | kChi2M1 => 2 | kChi2NormM1 => 3
  | kHGmeanM1 => 4 | kHGrmsM1 => 5 | kHGoccupM1 => 6
  | kLGmeanM1 => 7 | kLGrmsM1 => 8 | kLGoccupM1 => 9
  | kCellOccupM1 => 10 | kCellEM1 => 11 | kTimeEM1 => 12 | kLEDNpeaksM1 => 13
  end%nat.

Definition Hist2D_decode (n : nat) : Hist2D :=
  match n with
  | 0 => kErrorNumber | 1 => kErrorType | 2 => kChi2M1 | 3 => kChi2NormM1
  | 4 => kHGmeanM1 | 5 => kHGrmsM1 | 6 => kHGoccupM1
  | 7 => kLGmeanM1 | 8 => kLGrmsM1 | 9 => kLGoccupM1
  | 10 => kCellOccupM1 | 11 => kCellEM1 | 12 => kTimeEM1 | _ => kLEDNpeaksM1
  end%nat.

#[global] Instance Hist2D_countable : Countable Hist2D.
Proof. apply (inj_countable' Hist2D_code Hist2D_decode). by intros []. Defined.

Definition Hist1D_code (k : Hist1D) : nat :=
  match k with
  | kBadMapSummary => 0
  | kHGmeanSummaryM1 => 1 | kHGrmsSummaryM1 => 2
  | kLGmeanSummaryM1 => 3 | kLGrmsSummaryM1 => 4
  | kCellSpM1 => 5
  end%nat.

Definition Hist1D_decode (n : nat) : Hist1D :=
  match n with
  | 0 => kBadMapSummary
  | 1 => kHGmeanSummaryM1 | 2 => kHGrmsSummaryM1
  | 3 => kLGmeanSummaryM1 | 4 => kLGrmsSummaryM1
  | _ => kCellSpM1
  end%nat.

#[global] Instance Hist1D_countable : Countable Hist1D.
Proof. apply (inj_countable' Hist1D_code Hist1D_decode). by intros []. Defined.

(** The members of the task that the modelled functions read or write. *)
Record RawQcTask : Type := mkTask {
  mMode : Z;
  mCheckChi2 : bool;
  mFinalized : bool;
  mInitBadMap : bool;
  mHist1D : gmap (Hist1D * Z) TH1F.t;
  mHist2D : gmap (Hist2D * Z) TH2F.t;
  mSpectra : list TH1F.t }.

Definition set_mFinalized (b : bool) (s : RawQcTask) : RawQcTask :=
  mkTask (mMode s) (mCheckChi2 s) b (mInitBadMap s) (mHist1D s) (mHist2D s) (mSpectra s).

Definition set_mInitBadMap (b : bool) (s : RawQcTask) : RawQcTask :=
  mkTask (mMode s) (mCheckChi2 s) (mFinalized s) b (mHist1D s) (mHist2D s) (mSpectra s).

Definition set_mSpectra (l : list TH1F.t) (s : RawQcTask) : RawQcTask :=
  mkTask (mMode s) (mCheckChi2 s) (mFinalized s) (mInitBadMap s) (mHist1D s) (mHist2D s) l.

(** The pointer [mHist2D[k + mod]].  A family has the four members
    [mod = 0..3]; an index outside them would land on an enumerator of
    another family, which the model does not follow: no histogram. *)
Definition hist2D (s : RawQcTask) (k : Hist2D) (imod : Z) : option TH2F.t :=
  if decide (0 <= imod < 4) then mHist2D s !! (k, imod) else None.

Definition hist1D (s : RawQcTask) (k : Hist1D) (imod : Z) : option TH1F.t :=
  if decide (0 <= imod < 4) then mHist1D s !! (k, imod) else None.

Definition put2D (s : RawQcTask) (k : Hist2D) (imod : Z) (h : TH2F.t) : RawQcTask :=
  mkTask (mMode s) (mCheckChi2 s) (mFinalized s) (mInitBadMap s)
         (mHist1D s) (<[(k, imod) := h]> (mHist2D s)) (mSpectra s).

Definition put1D (s : RawQcTask) (k : Hist1D) (imod : Z) (h : TH1F.t) : RawQcTask :=
  mkTask (mMode s) (mCheckChi2 s) (mFinalized s) (mInitBadMap s)
         (<[(k, imod) := h]> (mHist1D s)) (mHist2D s) (mSpectra s).

(** [mHist2D[k + mod]->method(...)]: the histogram is updated in place; a
    null pointer cannot be dereferenced. *)
Definition call2D (s : RawQcTask) (k : Hist2D) (imod : Z) (method : TH2F.t -> TH2F.t)
  : option RawQcTask :=
  h ← hist2D s k imod; Some (put2D s k imod (method h)).

Definition call1D (s : RawQcTask) (k : Hist1D) (imod : Z) (method : TH1F.t -> TH1F.t)
  : option RawQcTask :=
  h ← hist1D s k imod; Some (put1D s k imod (method h)).

(** Content of cell [i] of [mHist2D[k + mod]], when there is such a cell. *)
Definition cell2D (s : RawQcTask) (k : Hist2D) (imod : Z) (i : nat) : option Qc :=
  h ← hist2D s k imod; TH2F.fArray h !! i.

(** ** Collaborators outside the file

    [absToRelNumbering] is [o2::phos::Geometry::absToRelNumbering]: the
    three entries it leaves in [relid] for an address (module, row, column);
    the source discards the value it returns.  [kOcccupancyTh] is the
    occupancy threshold of the task's header.  [TSpectrum_Search] is the
    number of peaks [TSpectrum::Search] reports for a spectrum. *)
Class Collaborators : Type := {
  absToRelNumbering : Z -> Z * Z * Z;
  kOcccupancyTh : Qc;
  TSpectrum_Search : TH1F.t -> Z }.

(** Modelled from the spec: [o2::phos::Mapping::NCHANNELS], the number of
    channels of four modules of 64 x 56 cells. *)
Definition NCHANNELS : Z := 14336.

(** ** The task *)

Section Task.

Context `{Collaborators}.

Local Open Scope Qc_scope.

(** The 64 x 56 grid of one module. *)
Definition new_grid : TH2F.t := TH2F.new 64 0 (Qc_of_Z 64) 56 0 (Qc_of_Z 56).

(** [if (!mHist2D[k + mod]) { mHist2D[k + mod] = fresh; } else { Reset(); }] *)
Definition create2D (s : RawQcTask) (k : Hist2D) (imod : Z) (fresh : TH2F.t) : RawQcTask :=
  match mHist2D s !! (k, imod) with
  | None => put2D s k imod fresh
  | Some h => put2D s k imod (TH2F.Reset h)
  end.

Definition create1D (s : RawQcTask) (k : Hist1D) (imod : Z) (fresh : TH1F.t) : RawQcTask :=
  match mHist1D s !! (k, imod) with
  | None => put1D s k imod fresh
  | Some h => put1D s k imod (TH1F.Reset h)
  end.

Definition modules : list Z := [0; 1; 2; 3]%Z.

Definition CreatePedestalHistograms (s : RawQcTask) : RawQcTask :=
  foldl (fun s imod =>
    let mean := TH2F.SetMaximum (TH2F.SetMinimum new_grid 0) (Qc_of_Z 100) in
    let rms := TH2F.SetMaximum (TH2F.SetMinimum new_grid 0) (Qc_of_Z 2) in
    let s := create2D s kHGmeanM1 imod mean in
    let s := create2D s kHGrmsM1 imod rms in
    let s := create2D s kHGoccupM1 imod new_grid in
    let s := create2D s kLGmeanM1 imod mean in
    let s := create2D s kLGrmsM1 imod rms in
    let s := create2D s kLGoccupM1 imod new_grid in
    let meansum := TH1F.SetMinimum (TH1F.new 100 0 (Qc_of_Z 100)) 0 in
    let rmssum := TH1F.SetMinimum (TH1F.new 100 0 (Qc_of_Z 10)) 0 in
    let s := create1D s kHGmeanSummaryM1 imod meansum in
    let s := create1D s kHGrmsSummaryM1 imod rmssum in
    let s := create1D s kLGmeanSummaryM1 imod meansum in
    create1D s kLGrmsSummaryM1 imod rmssum) s modules.

Definition CreatePhysicsHistograms (s : RawQcTask) : RawQcTask :=
  foldl (fun s imod =>
    let s := create2D s kCellOccupM1 imod (TH2F.SetMinimum new_grid 0) in
    let s := create2D s kCellEM1 imod (TH2F.SetMinimum new_grid 0) in
    let s := create2D s kTimeEM1 imod
               (TH2F.SetMinimum
                  (TH2F.new 50 0 (Qc_of_Z 1000)
                            50 (- Q2Qc (1 # 2000000)) (Q2Qc (1 # 2000000))) 0) in
    create1D s kCellSpM1 imod (TH1F.SetMinimum (TH1F.new 100 0 (Qc_of_Z 1000)) 0))
    s modules.

Definition CreateLEDHistograms (s : RawQcTask) : RawQcTask :=
  let s := CreatePhysicsHistograms s in
  let s := foldl (fun s imod =>
             create2D s kLEDNpeaksM1 imod (TH2F.SetMinimum new_grid 0)) s modules in
  set_mSpectra
    (mSpectra s ++ ((fun _ => TH1F.new 487 (Qc_of_Z 50) (Qc_of_Z 1024))
                      <$> seqZ 1793 (NCHANNELS - 1793 + 1))) s.

Definition InitHistograms (s : RawQcTask) : option RawQcTask :=
  let s := put2D s kErrorNumber 0 (TH2F.new 32 0 (Qc_of_Z 32) 15 0 (Qc_of_Z 15)) in
  let s := put2D s kErrorType 0 (TH2F.new 32 0 (Qc_of_Z 32) 15 0 (Qc_of_Z 15)) in
  let s := put1D s kBadMapSummary 0 (TH1F.new 4 1 (Qc_of_Z 5)) in
  s ← (if mCheckChi2 s then
         foldM (fun s imod =>
           match mHist2D s !! (kChi2M1, imod) with
           | None =>
               let s := put2D s kChi2M1 imod (TH2F.SetMinimum new_grid 0) in
               Some (put2D s kChi2NormM1 imod (TH2F.SetMinimum new_grid 0))
           | Some _ =>
               s ← call2D s kChi2M1 imod TH2F.Reset;
               call2D s kChi2NormM1 imod TH2F.Reset
           end) s modules
       else Some s);
  let s := if decide (mMode s = 0%Z) then CreatePhysicsHistograms s else s in
  let s := if decide (mMode s = 1%Z) then CreatePedestalHistograms s else s in
  let s := if decide (mMode s = 2%Z) then CreateLEDHistograms s else s in
  Some s.

(** The task before [InitHistograms], with the mode and the chi2 switch that
    [initialize] read from the configuration. *)
Definition new_task (mode : Z) (chi2 : bool) : RawQcTask :=
  mkTask mode chi2 false true ∅ ∅ [].

Definition reset (s : RawQcTask) : RawQcTask :=
  mkTask (mMode s) (mCheckChi2 s) false (mInitBadMap s)
         (TH1F.Reset <$> mHist1D s) (TH2F.Reset <$> mHist2D s) (mSpectra s).

Definition startOfActivity (s : RawQcTask) : RawQcTask := reset s.

(** [mHist2D[k + mod]->Multiply(mHist2D[k1 + mod])] *)
Definition Multiply2D (s : RawQcTask) (k k1 : Hist2D) (imod : Z) : option RawQcTask :=
  call2D s k imod (fun h => TH2F.Multiply h (hist2D s k1 imod)).

(** [mHist2D[k + mod]->Divide(mHist2D[k1 + mod])] *)
Definition Divide2D (s : RawQcTask) (k k1 : Hist2D) (imod : Z) : option RawQcTask :=
  call2D s k imod (fun h => TH2F.Divide h (hist2D s k1 imod)).

(** Lines 166-177: the chi2 sums are restored when the means were
    calculated; the flag is left to the Pedestal block in mode 1. *)
Definition startOfCycle_chi2 (s : RawQcTask) : option RawQcTask :=
  if mCheckChi2 s then
    if mFinalized s then
      s ← foldM (fun s imod =>
             match hist2D s kChi2M1 imod with
             | Some _ => Multiply2D s kChi2M1 kChi2NormM1 imod
             | None => Some s
             end) s modules;
      Some (if decide (mMode s ≠ 1%Z) then set_mFinalized false s else s)
    else Some s
  else Some s.

(** Lines 182-189: the Pedestal grids of one module are restored. *)
Definition unfinalize_module (s : RawQcTask) (imod : Z) : option RawQcTask :=
  s ← match hist2D s kHGmeanM1 imod with
      | Some _ =>
          s ← Multiply2D s kHGmeanM1 kHGoccupM1 imod;
          Multiply2D s kHGrmsM1 kHGoccupM1 imod
      | None => Some s
      end;
  match hist2D s kLGmeanM1 imod with
  | Some _ =>
      s ← Multiply2D s kLGmeanM1 kLGoccupM1 imod;
      Multiply2D s kLGrmsM1 kLGoccupM1 imod
  | None => Some s
  end.

Definition startOfCycle (s : RawQcTask) : option RawQcTask :=
  s ← startOfCycle_chi2 s;
  if decide (mMode s = 1%Z) then
    if mFinalized s then
      s ← foldM unfinalize_module s modules;
      Some (set_mFinalized false s)
    else Some s
  else Some s.

(** *** Cycle accumulation *)

(** [cells[i]] of a span: the index is checked. *)
Definition span_at (cells : list Cell) (i : Z) : option Cell :=
  if decide (0 <= i)%Z then cells !! Z.to_nat i else None.

(** The two nested loops over the trigger records and the cells of each. *)
Definition for_cells (body : RawQcTask -> Cell -> option RawQcTask)
    (s : RawQcTask) (cells : list Cell) (cellsTR : list TriggerRecord)
  : option RawQcTask :=
  foldM (fun s tr =>
    foldM (fun s i => c ← span_at cells i; body s c) s
          (seqZ (getFirstEntry tr) (getNumberOfObjects tr))) s cellsTR.

(** The energy the Physics rule works with: low-gain cells are scaled. *)
Definition physics_energy (c : Cell) : Qc :=
  if getHighGain c then getEnergy c else getEnergy c * Qc_of_Z 16.

(** Body of the loop of [FillPhysicsHistograms]. *)
Definition physics_cell (s : RawQcTask) (c : Cell) : option RawQcTask :=
  let address := getAbsId c in
  let e := physics_energy c in
  if decide (kOcccupancyTh < e) then
    let '(r0, r1, r2) := absToRelNumbering address in
    let imod := (r0 - 1)%Z in
    hocc ← hist2D s kCellOccupM1 imod;
    let ibin := TH2F.FindBin hocc (Qc_of_Z r1 - half) (Qc_of_Z r2 - half) in
    let n := TH2F.GetBinContent hocc ibin in
    emean ← (if decide (0 < n) then
               hE ← hist2D s kCellEM1 imod;
               Some ((e + TH2F.GetBinContent hE ibin * n) / (n + 1))
             else Some e);
    s ← call2D s kCellEM1 imod (fun h => TH2F.SetBinContent h ibin emean);
    s ← call2D s kCellOccupM1 imod (fun h => TH2F.AddBinContent h ibin 1);
    s ← call2D s kTimeEM1 imod (fun h => (TH2F.Fill h e (getTime c) 1).1);
    call1D s kCellSpM1 imod (fun h => TH1F.Fill h e)
  else Some s.

Definition FillPhysicsHistograms (s : RawQcTask) (cells : list Cell)
    (cellsTR : list TriggerRecord) : option RawQcTask :=
  for_cells physics_cell s cells cellsTR.

(** Body of the second loop of [FillLEDHistograms]. *)
Definition led_cell (s : RawQcTask) (c : Cell) : option RawQcTask :=
  if getHighGain c then
    let i := (getAbsId c - 1793)%Z in
    if decide (0 <= i)%Z then
      sp ← mSpectra s !! Z.to_nat i;
      Some (set_mSpectra (<[Z.to_nat i := TH1F.Fill sp (getEnergy c)]> (mSpectra s)) s)
    else None
  else Some s.

Definition FillLEDHistograms (s : RawQcTask) (cells : list Cell)
    (cellsTR : list TriggerRecord) : option RawQcTask :=
  s ← FillPhysicsHistograms s cells cellsTR;
  for_cells led_cell s cells cellsTR.

(** [mHist2D[k + mod]->Fill(relid[1] - 0.5, relid[2] - 0.5, w)] *)
Definition Fill2D (s : RawQcTask) (k : Hist2D) (imod r1 r2 : Z) (w : Qc)
  : option RawQcTask :=
  call2D s k imod (fun h => (TH2F.Fill h (Qc_of_Z r1 - half) (Qc_of_Z r2 - half) w).1).

(** Lines 446-449: the Pedestal grids of one module are restored. *)
Definition restore_module (s : RawQcTask) (imod : Z) : option RawQcTask :=
  s ← Multiply2D s kHGmeanM1 kHGoccupM1 imod;
  s ← Multiply2D s kHGrmsM1 kHGoccupM1 imod;
  s ← Multiply2D s kLGmeanM1 kLGoccupM1 imod;
  Multiply2D s kLGrmsM1 kLGoccupM1 imod.

(** Lines 444-452 of [FillPedestalHistograms]: back to raw sums. *)
Definition FillPedestal_restore (s : RawQcTask) : option RawQcTask :=
  if mFinalized s then
    s ← foldM restore_module s modules;
    Some (set_mFinalized false s)
  else Some s.

(** Body of the loop of [FillPedestalHistograms]. *)
Definition pedestal_cell (s : RawQcTask) (c : Cell) : option RawQcTask :=
  let address := getAbsId c in
  let '(r0, r1, r2) := absToRelNumbering address in
  let imod := (r0 - 1)%Z in
  if getHighGain c then
    s ← Fill2D s kHGmeanM1 imod r1 r2 (getEnergy c);
    s ← Fill2D s kHGrmsM1 imod r1 r2 (Qc_of_Z 10000000 * getTime c);
    Fill2D s kHGoccupM1 imod r1 r2 1
  else
    s ← Fill2D s kLGmeanM1 imod r1 r2 (getEnergy c);
    s ← Fill2D s kLGrmsM1 imod r1 r2 (Qc_of_Z 10000000 * getTime c);
    Fill2D s kLGoccupM1 imod r1 r2 1.

Definition FillPedestalHistograms (s : RawQcTask) (cells : list Cell)
    (cellsTR : list TriggerRecord) : option RawQcTask :=
  s ← FillPedestal_restore s;
  for_cells pedestal_cell s cells cellsTR.

(** *** [monitorData] *)

(** Conversion of a bin content to [int]; a value no [int] holds cannot be
    converted. *)
Definition to_int (q : Qc) : option Z :=
  if decide (int_range (Qc_trunc q)) then Some (Qc_trunc q) else None.

(** [1 << n] on [int]. *)
Definition shl1 (n : Z) : option Z :=
  if decide (0 <= n < 32)%Z then Some (wrap 32 (Z.shiftl 1 n)) else None.

(** Body of the loop over the hardware errors (lines 208-214). *)
Definition monitor_error (s : RawQcTask) (e : RawReaderError) : option RawQcTask :=
  hn ← hist2D s kErrorNumber 0;
  let '(hn', ibin) := TH2F.Fill hn (Qc_of_Z (getFEC e)) (Qc_of_Z (getDDL e)) 1 in
  let s := put2D s kErrorNumber 0 hn' in
  ht ← hist2D s kErrorType 0;
  cont ← to_int (TH2F.GetBinContent ht ibin);
  bit ← shl1 (getError e);
  let cont := Z.lor cont bit in
  Some (put2D s kErrorType 0 (TH2F.SetBinContent ht ibin (Qc_of_Z cont))).

(** Lines 217-238: the bad-channel summary, filled at the first call. *)
Definition monitor_badmap (s : RawQcTask) (bm : option (Z -> bool)) : option RawQcTask :=
  if mInitBadMap s then
    let s := set_mInitBadMap false s in
    match bm with
    | None => call1D s kBadMapSummary 0 TH1F.Reset
    | Some isChannelGood =>
        let nbm :=
          foldl (fun (nbm : list Z) absId =>
                   if isChannelGood absId then nbm
                   else alter (fun n => (n + 1) `mod` 65536)%Z
                              (Z.to_nat ((absId - 1) `quot` 3584)) nbm)
                [0; 0; 0; 0]%Z (seqZ 1973 (NCHANNELS - 1973 + 1)) in
        foldM (fun s imod =>
                 call1D s kBadMapSummary 0 (fun h =>
                   TH1F.SetBinContent h (imod + 1)
                     (Qc_of_Z (default 0%Z (nbm !! Z.to_nat imod))))) s modules
    end
  else Some s.

(** One (address, chi2) pair of the fit-quality input (lines 246-255). *)
Definition chi2_pair (s : RawQcTask) (address chi2 : Z) : option RawQcTask :=
  let caloFlag := Z.testbit address 14 in
  let address := wrap 16 (Z.land address (Z.lnot (Z.shiftl 1 14))) in
  let chi := Q2Qc (1 # 5) * Qc_of_Z chi2 in
  let '(r0, r1, r2) := absToRelNumbering address in
  s ← Fill2D s kChi2M1 (r0 - 1) r1 r2 chi;
  Fill2D s kChi2NormM1 (r0 - 1) r1 r2 1.

(** The loop over the fit-quality vector; an address without its chi2 would
    be read past the end of the vector. *)
Fixpoint monitor_chi2 (s : RawQcTask) (chi2list : list Z) : option RawQcTask :=
  match chi2list with
  | [] => Some s
  | address :: chi2 :: rest => s ← chi2_pair s address chi2; monitor_chi2 s rest
  | [_] => None
  end.

Definition monitorData (s : RawQcTask) (ctx : ProcessingContext) : option RawQcTask :=
  s ← foldM monitor_error s (rawerr ctx);
  s ← monitor_badmap s (badmap ctx);
  s ← (if mCheckChi2 s then monitor_chi2 s (fitquality ctx) else Some s);
  s ← (if decide (mMode s = 0%Z)
       then FillPhysicsHistograms s (cells_in ctx) (cellstr_in ctx) else Some s);
  s ← (if decide (mMode s = 1%Z)
       then FillPedestalHistograms s (cells_in ctx) (cellstr_in ctx) else Some s);
  if decide (mMode s = 2%Z)
  then FillLEDHistograms s (cells_in ctx) (cellstr_in ctx) else Some s.

(** *** [endOfCycle] *)

(** Lines 298-316: the scan of one materialized grid triple; the state
    carries the summaries, the pair the running minimum and maximum of the
    occupancy. *)
Definition scan_cell (kmean krms koccup : Hist2D) (kmeansum krmssum : Hist1D)
    (imod : Z) (acc : RawQcTask * (Qc * Qc)) (iz ix : Z)
  : option (RawQcTask * (Qc * Qc)) :=
  let '(s, (occMin, occMax)) := acc in
  hm ← hist2D s kmean imod;
  let a := TH2F.GetBinContent2 hm iz ix in
  s ← (if decide (0 < a) then call1D s kmeansum imod (fun h => TH1F.Fill h a) else Some s);
  hr ← hist2D s krms imod;
  let a := TH2F.GetBinContent2 hr iz ix in
  s ← (if decide (0 < a) then call1D s krmssum imod (fun h => TH1F.Fill h a) else Some s);
  ho ← hist2D s koccup imod;
  let a := TH2F.GetBinContent2 ho iz ix in
  if decide (0 < a) then
    let occMin := if decide (a < occMin) then a else occMin in
    let occMax := if decide (occMax < a) then a else occMax in
    Some (s, (occMin, occMax))
  else Some (s, (occMin, occMax)).

(** Lines 291-319 (high gain) and 320-348 (low gain): one gain of one
    module is materialized. *)
Definition finalize_gain (kmean krms koccup : Hist2D) (kmeansum krmssum : Hist1D)
    (s : RawQcTask) (imod : Z) : option RawQcTask :=
  match hist2D s kmean imod with
  | None => Some s
  | Some _ =>
      s ← Divide2D s kmean koccup imod;
      s ← Divide2D s krms koccup imod;
      s ← call1D s kmeansum imod TH1F.Reset;
      s ← call1D s krmssum imod TH1F.Reset;
      acc ← foldM (fun acc iz =>
               foldM (fun acc ix =>
                        scan_cell kmean krms koccup kmeansum krmssum imod acc iz ix)
                     acc (seqZ 1 56))
             (s, (Qc_of_Z 1000000000, 0)) (seqZ 1 64);
      let '(s, (occMin, occMax)) := acc in
      s ← call2D s koccup imod (fun h => TH2F.SetMinimum h occMin);
      call2D s koccup imod (fun h => TH2F.SetMaximum h occMax)
  end.

(** Lines 355-362: the number of peaks of one channel of the LED run. *)
Definition led_peaks (s : RawQcTask) (absId : Z) : option RawQcTask :=
  sp ← (if decide (1793 <= absId)%Z then mSpectra s !! Z.to_nat (absId - 1793) else None);
  let npeaks := TSpectrum_Search sp in
  let '(r0, r1, r2) := absToRelNumbering absId in
  let imod := (r0 - 1)%Z in
  h ← hist2D s kLEDNpeaksM1 imod;
  let ibin := TH2F.FindBin h (Qc_of_Z r1 - half) (Qc_of_Z r2 - half) in
  Some (put2D s kLEDNpeaksM1 imod (TH2F.SetBinContent h ibin (Qc_of_Z npeaks))).

(** Lines 276-284: the chi2 sums become means. *)
Definition endOfCycle_chi2 (s : RawQcTask) : option RawQcTask :=
  if mCheckChi2 s then
    if negb (mFinalized s) then
      foldM (fun s imod =>
               match hist2D s kChi2M1 imod with
               | Some _ => Divide2D s kChi2M1 kChi2NormM1 imod
               | None => Some s
               end) s modules
    else Some s
  else Some s.

(** Lines 291-348: both gains of one module. *)
Definition finalize_module (s : RawQcTask) (imod : Z) : option RawQcTask :=
  s ← finalize_gain kHGmeanM1 kHGrmsM1 kHGoccupM1
        kHGmeanSummaryM1 kHGrmsSummaryM1 s imod;
  finalize_gain kLGmeanM1 kLGrmsM1 kLGoccupM1
    kLGmeanSummaryM1 kLGrmsSummaryM1 s imod.

(** Lines 353-364: the LED block. *)
Definition endOfCycle_LED (s : RawQcTask) : option RawQcTask :=
  if decide (mMode s = 2%Z)
  then foldM led_peaks s (seqZ 1793 (NCHANNELS - 1793 + 1)) else Some s.

Definition endOfCycle (s : RawQcTask) : option RawQcTask :=
  s ← endOfCycle_chi2 s;
  if decide (mMode s = 1%Z) then
    if mFinalized s then Some s
    else
      s ← foldM finalize_module s modules;
      endOfCycle_LED (set_mFinalized true s)
  else endOfCycle_LED s.

Definition endOfActivity (s : RawQcTask) : option RawQcTask := endOfCycle s.

End Task.

(** ** A concrete instance of the collaborators *)

(** Modelled from the spec: the geometric decoding of
    [o2::phos::Geometry::absToRelNumbering], which is not part of the file:
    four modules of 64 rows of 56 columns, numbered from 1, in the integer
    arithmetic of the source (the same [(absId - 1) / 3584] as line 230).
    The valid addresses are [1 .. NCHANNELS]. *)
Definition Geometry_absToRelNumbering (absId : Z) : Z * Z * Z :=
  let phosmodulenumber := (absId - 1) `quot` (56 * 64) in
  let relid0 := phosmodulenumber + 1 in
  let absId := absId - phosmodulenumber * 64 * 56 in
  let relid1 := 1 + (absId - 1) `quot` 56 in
  let relid2 := absId - (relid1 - 1) * 56 in
  (relid0, relid1, relid2).

Definition valid_address (absId : Z) : Prop := 1 <= absId <= NCHANNELS.

(** The instance the examples run with: the decoding above, an occupancy
    threshold of 10, and a peak search that finds nothing (no example below
    runs the LED mode). *)
Definition phos : Collaborators :=
  {| absToRelNumbering := Geometry_absToRelNumbering;
     kOcccupancyTh := Qc_of_Z 10;
     TSpectrum_Search := fun _ => 0 |}.

(** * Properties *)

#[local] Opaque seqZ.

(** ** Numbers and histograms *)

Lemma Qc_trunc_range (q : Qc) (n : Z) :
  (0 <= q)%Qc -> (q < Qc_of_Z n)%Qc -> 0 <= Qc_trunc q < n.
Proof.
  unfold Qc_trunc, Qcle, Qclt, Qle, Qlt. simpl.
  destruct q as [[a b] Hq]; simpl. intros H0 Hn.
  rewrite Z.quot_div_nonneg by lia.
  split.
  - apply Z.div_pos; lia.
  - apply Z.div_lt_upper_bound; lia.
Qed.

Lemma Qc_trunc_of_Z (z : Z) : Qc_trunc (Qc_of_Z z) = z.
Proof. unfold Qc_trunc. simpl. apply Z.quot_1_r. Qed.

Lemma TAxis_FindBin_range (a : TAxis.t) (x : Qc) :
  TAxis.wf a -> 0 <= TAxis.FindBin a x <= TAxis.fNbins a + 1.
Proof.
  intros [Hn Hlt]. unfold TAxis.FindBin.
  case_decide as Hlo; [lia|]. case_decide as Hhi; [|lia].
  set (w := (TAxis.fXmax a - TAxis.fXmin a)%Qc).
  set (d := (x - TAxis.fXmin a)%Qc).
  assert (Hw : (0 < w)%Qc) by (apply Qclt_minus_iff in Hlt; exact Hlt).
  assert (Hd0 : (0 <= d)%Qc).
  { apply Qcnot_lt_le, Qcle_minus_iff in Hlo. exact Hlo. }
  assert (Hdw : (d < w)%Qc).
  { unfold d, w. apply Qclt_minus_iff.
    replace (TAxis.fXmax a - TAxis.fXmin a + - (x - TAxis.fXmin a))%Qc
      with (TAxis.fXmax a + - x)%Qc by ring.
    apply Qclt_minus_iff in Hhi. exact Hhi. }
  assert (Hn0 : (0 < Qc_of_Z (TAxis.fNbins a))%Qc).
  { rewrite <- Z2Qc_inj_0. apply (proj1 (Z2Qc_inj_lt 0 _)). lia. }
  assert (Hiw : (0 < / w)%Qc) by by apply Qcinv_pos.
  assert (Hw0 : w <> 0%Qc) by (intros E; rewrite E in Hw; by apply Qclt_not_eq in Hw).
  destruct (Qc_trunc_range (Qc_of_Z (TAxis.fNbins a) * d / w) (TAxis.fNbins a)); [| |lia].
  - unfold Qcdiv. apply Qcmult_nonneg_nonneg; [|by apply Qclt_le_weak].
    apply Qcmult_nonneg_nonneg; [by apply Qclt_le_weak|done].
  - replace (Qc_of_Z (TAxis.fNbins a) * d / w)%Qc
      with (Qc_of_Z (TAxis.fNbins a) * (d * / w))%Qc by (unfold Qcdiv; ring).
    rewrite <- (Qcmult_1_r (Qc_of_Z (TAxis.fNbins a))) at 2.
    apply Qcmult_lt_mono_pos_l; [done|].
    rewrite <- (Qcmult_inv_r w) by done.
    by apply Qcmult_lt_mono_pos_r.
Qed.

Lemma TH2F_FindBin_range (h : TH2F.t) (x y : Qc) :
  TH2F.wf h -> 0 <= TH2F.FindBin h x y < TH2F.fNcells h.
Proof.
  intros (Hx & Hy & _). unfold TH2F.FindBin, TH2F.fNcells.
  pose proof (TAxis_FindBin_range _ x Hx). pose proof (TAxis_FindBin_range _ y Hy).
  destruct Hx, Hy. nia.
Qed.

Lemma TH2F_FindBin_lookup (h : TH2F.t) (x y : Qc) :
  TH2F.wf h -> (Z.to_nat (TH2F.FindBin h x y) < length (TH2F.fArray h))%nat.
Proof.
  intros Hwf. pose proof (TH2F_FindBin_range h x y Hwf). destruct Hwf as (_ & _ & ->). lia.
Qed.

(** [GetBinContent] of a bin of the array is the content of that cell. *)
Lemma TH2F_GetBinContent_cell (h : TH2F.t) (bin : Z) (c : Qc) :
  0 <= bin < TH2F.fNcells h ->
  TH2F.fArray h !! Z.to_nat bin = Some c -> TH2F.GetBinContent h bin = c.
Proof.
  intros Hb Hc. unfold TH2F.GetBinContent, TH2F.RetrieveBinContent.
  repeat case_decide; try lia. by rewrite Hc.
Qed.

(** The binning and the size of the array of a histogram. *)
Definition shape (h : TH2F.t) : TAxis.t * TAxis.t * nat :=
  (TH2F.fXaxis h, TH2F.fYaxis h, length (TH2F.fArray h)).

Lemma shape_wf (h h' : TH2F.t) : shape h' = shape h -> TH2F.wf h -> TH2F.wf h'.
Proof.
  unfold shape, TH2F.wf, TH2F.fNcells. intros [= -> -> ->]. done.
Qed.

Lemma shape_same_bins (h h' g g' : TH2F.t) :
  shape h' = shape h -> shape g' = shape g -> TH2F.same_bins h g -> TH2F.same_bins h' g'.
Proof. unfold shape, TH2F.same_bins. intros [= -> -> _] [= -> -> _]. done. Qed.

Lemma shape_SetBinContent h bin c : shape (TH2F.SetBinContent h bin c) = shape h.
Proof.
  unfold TH2F.SetBinContent, TH2F.UpdateBinContent, shape.
  repeat case_decide; simpl; by rewrite ?length_insert.
Qed.

Lemma shape_AddBinContent h bin w : shape (TH2F.AddBinContent h bin w) = shape h.
Proof.
  unfold TH2F.AddBinContent, shape. case_decide; simpl; by rewrite ?length_alter.
Qed.

Lemma shape_Fill h x y w : shape (TH2F.Fill h x y w).1 = shape h.
Proof. unfold TH2F.Fill. repeat case_decide; simpl; apply shape_AddBinContent. Qed.

Lemma shape_cellwise op h h1 : shape (TH2F.cellwise op h h1) = shape h.
Proof. unfold TH2F.cellwise, shape. simpl. by rewrite length_imap. Qed.

Lemma shape_Multiply h h1 : shape (TH2F.Multiply h h1) = shape h.
Proof.
  unfold TH2F.Multiply. destruct h1; [|done]. case_decide; [apply shape_cellwise|done].
Qed.

Lemma shape_Divide h h1 : shape (TH2F.Divide h h1) = shape h.
Proof.
  unfold TH2F.Divide. destruct h1; [|done]. case_decide; [apply shape_cellwise|done].
Qed.

Lemma shape_SetMinimum h m : shape (TH2F.SetMinimum h m) = shape h.
Proof. done. Qed.

Lemma shape_SetMaximum h m : shape (TH2F.SetMaximum h m) = shape h.
Proof. done. Qed.

Create HintDb shape discriminated.
#[local] Hint Resolve shape_SetBinContent shape_AddBinContent shape_Fill
  shape_Multiply shape_Divide shape_SetMinimum shape_SetMaximum : shape.

(** Cells of a product and of a quotient of two histograms. *)
Lemma Multiply_cell (h h1 : TH2F.t) (i : nat) (v n : Qc) :
  TH2F.same_bins h h1 ->
  TH2F.fArray h !! i = Some v -> TH2F.fArray h1 !! i = Some n ->
  TH2F.fArray (TH2F.Multiply h (Some h1)) !! i = Some (mul_cell v n).
Proof.
  intros Hb Hv Hn. unfold TH2F.Multiply, TH2F.cellwise. rewrite decide_True by done.
  simpl. rewrite list_lookup_imap, Hv. simpl. by rewrite Hn.
Qed.

Lemma Divide_cell (h h1 : TH2F.t) (i : nat) (v n : Qc) :
  TH2F.same_bins h h1 ->
  TH2F.fArray h !! i = Some v -> TH2F.fArray h1 !! i = Some n ->
  TH2F.fArray (TH2F.Divide h (Some h1)) !! i = Some (div_cell v n).
Proof.
  intros Hb Hv Hn. unfold TH2F.Divide, TH2F.cellwise. rewrite decide_True by done.
  simpl. rewrite list_lookup_imap, Hv. simpl. by rewrite Hn.
Qed.

(** Dividing by a non-zero count and multiplying by it again gives the
    value back; over a zero count the value is lost. *)
Lemma mul_div_cell (v n : Qc) : n <> 0%Qc -> mul_cell (div_cell v n) n = v.
Proof.
  intros Hn. unfold mul_cell, div_cell. rewrite decide_False by done. by field.
Qed.

Lemma mul_div_cell_0 (v : Qc) : mul_cell (div_cell v 0%Qc) 0%Qc = 0%Qc.
Proof. unfold mul_cell, div_cell. rewrite decide_True by done. ring. Qed.

(** ** The histogram bank *)

Lemma foldM_app {S A : Type} (f : S -> A -> option S) (s : S) (l1 l2 : list A) :
  foldM f s (l1 ++ l2) = s' ← foldM f s l1; foldM f s' l2.
Proof.
  revert s. induction l1 as [|a l1 IH]; intros s; simpl; [done|].
  destruct (f s a); simpl; [apply IH|done].
Qed.

(** A loop whose body keeps a relation to the starting state keeps it. *)
Lemma foldM_rel {S A : Type} (R : S -> S -> Prop) (f : S -> A -> option S) :
  (forall s, R s s) -> (forall s1 s2 s3, R s1 s2 -> R s2 s3 -> R s1 s3) ->
  (forall s a s', f s a = Some s' -> R s s') ->
  forall l s s', foldM f s l = Some s' -> R s s'.
Proof.
  intros Hrefl Htrans Hstep l. induction l as [|a l IH]; intros s s' Hf; simpl in Hf.
  - injection Hf as <-. apply Hrefl.
  - destruct (f s a) as [s1|] eqn:Ha; [|done].
    eapply Htrans; [by eapply Hstep|by apply IH].
Qed.

(** A loop whose body succeeds under an invariant, and keeps it, succeeds. *)
Lemma foldM_total {S A : Type} (I : S -> Prop) (f : S -> A -> option S) (l : list A) :
  (forall s a, a ∈ l -> I s -> exists s', f s a = Some s' /\ I s') ->
  forall s, I s -> exists s', foldM f s l = Some s' /\ I s'.
Proof.
  induction l as [|a l IH]; intros Hstep s Hs; simpl.
  - by exists s.
  - destruct (Hstep s a) as (s1 & -> & Hs1); [by left|done|].
    apply IH; [|done]. intros s2 b Hb. apply Hstep. by right.
Qed.

Lemma hist2D_range s k m h : hist2D s k m = Some h -> 0 <= m < 4.
Proof. unfold hist2D. by case_decide. Qed.

Lemma hist1D_range s k m h : hist1D s k m = Some h -> 0 <= m < 4.
Proof. unfold hist1D. by case_decide. Qed.

Lemma hist2D_put2D_eq s k m h : 0 <= m < 4 -> hist2D (put2D s k m h) k m = Some h.
Proof. intros Hm. unfold hist2D, put2D; simpl. rewrite decide_True by done. apply lookup_insert_eq. Qed.

Lemma hist2D_put2D_ne s k m h k' m' :
  (k, m) <> (k', m') -> hist2D (put2D s k m h) k' m' = hist2D s k' m'.
Proof. intros Hne. unfold hist2D, put2D; simpl. case_decide; [|done]. by apply lookup_insert_ne. Qed.

Lemma hist1D_put1D_eq s k m h : 0 <= m < 4 -> hist1D (put1D s k m h) k m = Some h.
Proof. intros Hm. unfold hist1D, put1D; simpl. rewrite decide_True by done. apply lookup_insert_eq. Qed.

Lemma hist1D_put1D_ne s k m h k' m' :
  (k, m) <> (k', m') -> hist1D (put1D s k m h) k' m' = hist1D s k' m'.
Proof. intros Hne. unfold hist1D, put1D; simpl. case_decide; [|done]. by apply lookup_insert_ne. Qed.

Lemma hist1D_put2D s k m h k' m' : hist1D (put2D s k m h) k' m' = hist1D s k' m'.
Proof. done. Qed.

Lemma hist2D_put1D s k m h k' m' : hist2D (put1D s k m h) k' m' = hist2D s k' m'.
Proof. done. Qed.

Lemma call2D_Some s k m f s' :
  call2D s k m f = Some s' <-> exists h, hist2D s k m = Some h /\ s' = put2D s k m (f h).
Proof.
  unfold call2D. destruct (hist2D s k m) as [h|]; simpl; split.
  - intros [= <-]. by exists h.
  - by intros (h' & [= <-] & ->).
  - done.
  - by intros (h' & ? & _).
Qed.

Lemma call1D_Some s k m f s' :
  call1D s k m f = Some s' <-> exists h, hist1D s k m = Some h /\ s' = put1D s k m (f h).
Proof.
  unfold call1D. destruct (hist1D s k m) as [h|]; simpl; split.
  - intros [= <-]. by exists h.
  - by intros (h' & [= <-] & ->).
  - done.
  - by intros (h' & ? & _).
Qed.

(** [keeps s s']: the task [s'] has the configuration of [s] and every
    histogram of [s], with its binning. *)
Definition keeps (s s' : RawQcTask) : Prop :=
  mMode s' = mMode s /\ mCheckChi2 s' = mCheckChi2 s /\
  (forall k m h, hist2D s k m = Some h ->
     exists h', hist2D s' k m = Some h' /\ shape h' = shape h) /\
  (forall k m, is_Some (hist1D s k m) -> is_Some (hist1D s' k m)).

Lemma keeps_refl s : keeps s s.
Proof. repeat split; eauto. Qed.

Lemma keeps_trans s1 s2 s3 : keeps s1 s2 -> keeps s2 s3 -> keeps s1 s3.
Proof.
  intros (? & ? & H2 & H1) (? & ? & H2' & H1').
  repeat split; try congruence.
  - intros k m h Hh. destruct (H2 _ _ _ Hh) as (h' & Hh' & ?).
    destruct (H2' _ _ _ Hh') as (h'' & ? & ?). exists h''. split; [done|congruence].
  - eauto.
Qed.

Lemma keeps_put2D s k m h h' :
  hist2D s k m = Some h -> shape h' = shape h -> keeps s (put2D s k m h').
Proof.
  intros Hh Hs. repeat split; try done.
  intros k0 m0 h0 Hh0. destruct (decide ((k, m) = (k0, m0))) as [[= <- <-]|Hne].
  - exists h'. rewrite hist2D_put2D_eq by by eapply hist2D_range. split; [done|congruence].
  - exists h0. by rewrite hist2D_put2D_ne.
Qed.

Lemma keeps_put1D s k m h h' : hist1D s k m = Some h -> keeps s (put1D s k m h').
Proof.
  intros Hh. repeat split; try done; [eauto|].
  intros k0 m0 Hh0. destruct (decide ((k, m) = (k0, m0))) as [[= <- <-]|Hne].
  - rewrite hist1D_put1D_eq by by eapply hist1D_range. done.
  - by rewrite hist1D_put1D_ne.
Qed.

Lemma keeps_call2D s k m f s' :
  (forall h, shape (f h) = shape h) -> call2D s k m f = Some s' -> keeps s s'.
Proof. intros Hf (h & Hh & ->)%call2D_Some. by eapply keeps_put2D. Qed.

Lemma keeps_call1D s k m f s' : call1D s k m f = Some s' -> keeps s s'.
Proof. intros (h & Hh & ->)%call1D_Some. by eapply keeps_put1D. Qed.

Lemma keeps_foldM {A : Type} (f : RawQcTask -> A -> option RawQcTask) l s s' :
  (forall s a s', f s a = Some s' -> keeps s s') -> foldM f s l = Some s' -> keeps s s'.
Proof. intros Hf. eapply foldM_rel; eauto using keeps_refl, keeps_trans. Qed.

(** What a call leaves alone, and what it writes. *)
Lemma call2D_other s k m f s' k' m' :
  call2D s k m f = Some s' -> (k, m) <> (k', m') -> hist2D s' k' m' = hist2D s k' m'.
Proof. intros (h & Hh & ->)%call2D_Some Hne. by apply hist2D_put2D_ne. Qed.

Lemma call2D_same s k m f s' h :
  call2D s k m f = Some s' -> hist2D s k m = Some h -> hist2D s' k m = Some (f h).
Proof.
  intros (h' & Hh & ->)%call2D_Some Hh'. rewrite hist2D_put2D_eq by by eapply hist2D_range.
  congruence.
Qed.

Lemma call1D_hist2D s k m f s' k' m' :
  call1D s k m f = Some s' -> hist2D s' k' m' = hist2D s k' m'.
Proof. by intros (h & Hh & ->)%call1D_Some. Qed.

Lemma call2D_hist1D s k m f s' k' m' :
  call2D s k m f = Some s' -> hist1D s' k' m' = hist1D s k' m'.
Proof. by intros (h & Hh & ->)%call2D_Some. Qed.

Lemma call2D_is_Some s k m f : is_Some (hist2D s k m) -> is_Some (call2D s k m f).
Proof. intros [h Hh]. unfold call2D. rewrite Hh. by eexists. Qed.

Lemma call1D_is_Some s k m f : is_Some (hist1D s k m) -> is_Some (call1D s k m f).
Proof. intros [h Hh]. unfold call1D. rewrite Hh. by eexists. Qed.

(** ** Steps that only accumulate

    [calm s s']: [s'] keeps the configuration and the histograms of [s], and
    its two error histograms are those of [s].  [quiet s s']: moreover the
    flag [mFinalized] is that of [s]. *)
Definition calm (s s' : RawQcTask) : Prop :=
  keeps s s' /\
  hist2D s' kErrorNumber 0 = hist2D s kErrorNumber 0 /\
  hist2D s' kErrorType 0 = hist2D s kErrorType 0.

Definition quiet (s s' : RawQcTask) : Prop :=
  calm s s' /\ mFinalized s' = mFinalized s.

Lemma calm_refl s : calm s s.
Proof. split; [apply keeps_refl|done]. Qed.

Lemma calm_trans s1 s2 s3 : calm s1 s2 -> calm s2 s3 -> calm s1 s3.
Proof.
  intros (? & ? & ?) (? & ? & ?). split; [by eapply keeps_trans|]. split; congruence.
Qed.

Lemma calm_set_mFinalized s b : calm s (set_mFinalized b s).
Proof. split; [repeat split; eauto|done]. Qed.

Lemma quiet_calm s s' : quiet s s' -> calm s s'.
Proof. by intros [? _]. Qed.

Lemma quiet_keeps s s' : quiet s s' -> keeps s s'.
Proof. by intros [[? _] _]. Qed.

Lemma quiet_refl s : quiet s s.
Proof. split; [apply calm_refl|done]. Qed.

Lemma quiet_trans s1 s2 s3 : quiet s1 s2 -> quiet s2 s3 -> quiet s1 s3.
Proof. intros [? ?] [? ?]. split; [by eapply calm_trans|congruence]. Qed.

Lemma quiet_foldM {A : Type} (f : RawQcTask -> A -> option RawQcTask) l s s' :
  (forall s a s', f s a = Some s' -> quiet s s') -> foldM f s l = Some s' -> quiet s s'.
Proof. intros Hf. eapply foldM_rel; eauto using quiet_refl, quiet_trans. Qed.

Lemma quiet_foldM_fst {A B : Type}
    (f : RawQcTask * B -> A -> option (RawQcTask * B)) l acc acc' :
  (forall acc a acc', f acc a = Some acc' -> quiet acc.1 acc'.1) ->
  foldM f acc l = Some acc' -> quiet acc.1 acc'.1.
Proof.
  intros Hf. apply (foldM_rel (fun a b => quiet a.1 b.1)); [|..|done].
  - intros. apply quiet_refl.
  - intros ? ? ?. apply quiet_trans.
Qed.

Definition accumulator (k : Hist2D) : Prop := k <> kErrorNumber /\ k <> kErrorType.

Lemma quiet_call2D s k m f s' :
  call2D s k m f = Some s' ->
  accumulator k -> (forall h, shape (f h) = shape h) -> quiet s s'.
Proof.
  intros Hc [Hn Ht] Hf. pose proof Hc as (h & Hh & ->)%call2D_Some.
  split; [|done]. split; [by eapply keeps_call2D|].
  split; eapply call2D_other; eauto; congruence.
Qed.

Lemma quiet_call1D s k m f s' : call1D s k m f = Some s' -> quiet s s'.
Proof.
  intros Hc. pose proof Hc as (h & Hh & ->)%call1D_Some.
  split; [|done]. split; [by eapply keeps_call1D|]. split; by eapply call1D_hist2D.
Qed.

Lemma quiet_put2D s k m h h' :
  accumulator k -> hist2D s k m = Some h -> shape h' = shape h -> quiet s (put2D s k m h').
Proof.
  intros [Hn Ht] Hh Hs. split; [|done]. split; [by eapply keeps_put2D|].
  split; apply hist2D_put2D_ne; congruence.
Qed.

(** Takes a successful run of binds, conditionals and matches apart. *)
Ltac run_inv H :=
  repeat match type of H with
  | (_ ≫= _) = Some _ =>
      let s1 := fresh "s" in let E := fresh "E" in
      apply bind_Some in H as (s1 & E & H)
  | (let '(_, _) := ?p in _) = Some _ => destruct p eqn:?
  | (if ?b then _ else _) = Some _ => destruct b eqn:?
  | match ?x with _ => _ end = Some _ => destruct x eqn:?
  | None = Some _ => discriminate H
  end.

(** The same on every hypothesis, with the results substituted. *)
Ltac run_all :=
  repeat match goal with
  | H : (_ ≫= _) = Some _ |- _ =>
      let s1 := fresh "s" in let E := fresh "E" in
      apply bind_Some in H as (s1 & E & H)
  | H : (if ?b then _ else _) = Some _ |- _ => destruct b eqn:?
  | H : match ?x with _ => _ end = Some _ |- _ => destruct x eqn:?
  | H : None = Some _ |- _ => discriminate H
  | H : Some _ = Some _ |- _ => apply (inj Some) in H; try subst
  end.

Ltac shape_tac := intros; cbv beta; auto with shape.

(** Closes [quiet s s'] from the calls collected by [run_inv]. *)
Ltac quiet_chain :=
  repeat first
    [ apply quiet_refl
    | eassumption
    | eapply quiet_trans;
      [ first [ eassumption
              | eapply quiet_call1D; eassumption
              | eapply quiet_call2D; [eassumption|split; discriminate|shape_tac] ] | ] ].

Section Accumulation.

Context `{Collaborators}.

Lemma quiet_Multiply2D s k k1 m s' :
  Multiply2D s k k1 m = Some s' -> accumulator k -> quiet s s'.
Proof. intros Hc Hk. eapply quiet_call2D; [exact Hc|done|shape_tac]. Qed.

Lemma quiet_Divide2D s k k1 m s' :
  Divide2D s k k1 m = Some s' -> accumulator k -> quiet s s'.
Proof. intros Hc Hk. eapply quiet_call2D; [exact Hc|done|shape_tac]. Qed.

Lemma quiet_Fill2D s k m r1 r2 w s' :
  Fill2D s k m r1 r2 w = Some s' -> accumulator k -> quiet s s'.
Proof. intros Hc Hk. eapply quiet_call2D; [exact Hc|done|shape_tac]. Qed.

Lemma quiet_physics_cell s c s' : physics_cell s c = Some s' -> quiet s s'.
Proof.
  unfold physics_cell. intros Hp.
  case_decide; [|injection Hp as <-; apply quiet_refl].
  destruct (absToRelNumbering _) as [[r0 r1] r2].
  run_inv Hp; quiet_chain.
Qed.

Lemma quiet_pedestal_cell s c s' : pedestal_cell s c = Some s' -> quiet s s'.
Proof.
  unfold pedestal_cell. intros Hp.
  destruct (absToRelNumbering _) as [[r0 r1] r2].
  destruct (getHighGain c); run_inv Hp;
    (eapply quiet_trans; [eapply quiet_Fill2D; [eassumption|split; discriminate]|]);
    (eapply quiet_trans; [eapply quiet_Fill2D; [eassumption|split; discriminate]|]);
    (eapply quiet_Fill2D; [eassumption|split; discriminate]).
Qed.

Lemma quiet_set_mSpectra s l : quiet s (set_mSpectra l s).
Proof. split; [|done]. split; [repeat split; eauto|done]. Qed.

Lemma quiet_set_mInitBadMap s b : quiet s (set_mInitBadMap b s).
Proof. split; [|done]. split; [repeat split; eauto|done]. Qed.

Lemma quiet_led_cell s c s' : led_cell s c = Some s' -> quiet s s'.
Proof.
  unfold led_cell. intros Hp. destruct (getHighGain c).
  - case_decide; [|done]. run_inv Hp. injection Hp as <-. apply quiet_set_mSpectra.
  - injection Hp as <-. apply quiet_refl.
Qed.

Lemma quiet_for_cells body s cells cellsTR s' :
  (forall s c s', body s c = Some s' -> quiet s s') ->
  for_cells body s cells cellsTR = Some s' -> quiet s s'.
Proof.
  intros Hbody. unfold for_cells. apply quiet_foldM. intros s1 tr s2.
  apply quiet_foldM. intros s3 i s4 Hi. run_inv Hi. eauto.
Qed.

Lemma quiet_FillPhysicsHistograms s cells cellsTR s' :
  FillPhysicsHistograms s cells cellsTR = Some s' -> quiet s s'.
Proof. apply quiet_for_cells, quiet_physics_cell. Qed.

Lemma quiet_FillLEDHistograms s cells cellsTR s' :
  FillLEDHistograms s cells cellsTR = Some s' -> quiet s s'.
Proof.
  unfold FillLEDHistograms. intros Hf. run_inv Hf.
  eapply quiet_trans; [by eapply quiet_FillPhysicsHistograms|].
  by eapply quiet_for_cells, Hf; apply quiet_led_cell.
Qed.

Lemma quiet_chi2_pair s a q s' : chi2_pair s a q = Some s' -> quiet s s'.
Proof.
  unfold chi2_pair. intros Hp. destruct (absToRelNumbering _) as [[r0 r1] r2].
  run_inv Hp.
  eapply quiet_trans; (eapply quiet_Fill2D; [eassumption|split; discriminate]).
Qed.

Lemma quiet_monitor_chi2 l : forall s s', monitor_chi2 s l = Some s' -> quiet s s'.
Proof.
  cut (forall s s', (monitor_chi2 s l = Some s' -> quiet s s') /\
                    (forall a, monitor_chi2 s (a :: l) = Some s' -> quiet s s')).
  { intros Hc s s'. apply Hc. }
  induction l as [|q l IH]; intros s s'; split.
  - intros [= <-]. apply quiet_refl.
  - done.
  - apply IH.
  - intros a Hm. simpl in Hm. run_inv Hm.
    eapply quiet_trans; [by eapply quiet_chi2_pair|]. by apply IH.
Qed.

Lemma quiet_monitor_badmap s bm s' : monitor_badmap s bm = Some s' -> quiet s s'.
Proof.
  unfold monitor_badmap. intros Hm. destruct (mInitBadMap s).
  - destruct bm as [good|].
    + eapply quiet_trans; [apply (quiet_set_mInitBadMap s false)|].
      eapply quiet_foldM, Hm. intros s1 a s2. apply quiet_call1D.
    + eapply quiet_trans; [apply (quiet_set_mInitBadMap s false)|].
      by eapply quiet_call1D.
  - injection Hm as <-. apply quiet_refl.
Qed.

Lemma quiet_scan_cell kmean krms koccup kmeansum krmssum m acc iz ix acc' :
  scan_cell kmean krms koccup kmeansum krmssum m acc iz ix = Some acc' ->
  quiet acc.1 acc'.1.
Proof.
  unfold scan_cell. destruct acc as [s [occMin occMax]]. intros Hs.
  run_all; simpl; quiet_chain.
Qed.

Lemma quiet_finalize_gain kmean krms koccup kmeansum krmssum s m s' :
  accumulator kmean -> accumulator krms -> accumulator koccup ->
  finalize_gain kmean krms koccup kmeansum krmssum s m = Some s' -> quiet s s'.
Proof.
  intros Hm Hr Ho. unfold finalize_gain. intros Hf.
  destruct (hist2D s kmean m); [|injection Hf as <-; apply quiet_refl].
  apply bind_Some in Hf as (s1 & E1 & Hf).
  apply bind_Some in Hf as (s2 & E2 & Hf).
  apply bind_Some in Hf as (s3 & E3 & Hf).
  apply bind_Some in Hf as (s4 & E4 & Hf).
  apply bind_Some in Hf as ([s5 [occMin occMax]] & Escan & Hf).
  apply bind_Some in Hf as (s6 & E6 & Hf).
  assert (quiet s4 s5) as Hscan.
  { eapply (quiet_foldM_fst _ _ (s4, _) (s5, _)); [|exact Escan].
    intros acc iz acc'. apply quiet_foldM_fst.
    intros acc1 ix acc2. apply quiet_scan_cell. }
  eapply quiet_trans; [eapply quiet_Divide2D; eassumption|].
  eapply quiet_trans; [eapply quiet_Divide2D; eassumption|].
  eapply quiet_trans; [eapply quiet_call1D; eassumption|].
  eapply quiet_trans; [eapply quiet_call1D; eassumption|].
  eapply quiet_trans; [eassumption|].
  eapply quiet_trans; (eapply quiet_call2D; [eassumption|done|shape_tac]).
Qed.

Lemma quiet_led_peaks s absId s' : led_peaks s absId = Some s' -> quiet s s'.
Proof.
  unfold led_peaks. intros Hl. apply bind_Some in Hl as (sp & _ & Hl).
  destruct (absToRelNumbering _) as [[r0 r1] r2].
  run_inv Hl. injection Hl as <-.
  eapply quiet_put2D; [split; discriminate|eassumption|shape_tac].
Qed.

End Accumulation.

(** ** The cycle boundaries *)

Section Boundaries.

Context `{Collaborators}.

Lemma quiet_restore_module s m s' : restore_module s m = Some s' -> quiet s s'.
Proof.
  unfold restore_module. intros Hr. run_inv Hr.
  repeat (eapply quiet_trans; [eapply quiet_Multiply2D; [eassumption|split; discriminate]|]).
  apply quiet_refl.
Qed.

Lemma quiet_unfinalize_module s m s' : unfinalize_module s m = Some s' -> quiet s s'.
Proof.
  unfold unfinalize_module. intros Hr. run_all;
    repeat first
      [ apply quiet_refl
      | eapply quiet_Multiply2D; [eassumption|split; discriminate]
      | eapply quiet_trans; [eapply quiet_Multiply2D; [eassumption|split; discriminate]|] ].
Qed.

Lemma quiet_finalize_module s m s' : finalize_module s m = Some s' -> quiet s s'.
Proof.
  unfold finalize_module. intros Hr. run_inv Hr.
  eapply quiet_trans; (eapply quiet_finalize_gain; [..|eassumption]; split; discriminate).
Qed.

Lemma quiet_endOfCycle_chi2 s s' : endOfCycle_chi2 s = Some s' -> quiet s s'.
Proof.
  unfold endOfCycle_chi2. intros Hr.
  destruct (mCheckChi2 s); [|injection Hr as <-; apply quiet_refl].
  destruct (negb (mFinalized s)); [|injection Hr as <-; apply quiet_refl].
  eapply quiet_foldM, Hr. intros s1 m s2 Hs. cbv beta in Hs.
  destruct (hist2D s1 kChi2M1 m); [|injection Hs as <-; apply quiet_refl].
  eapply quiet_Divide2D; [eassumption|split; discriminate].
Qed.

Lemma quiet_endOfCycle_LED s s' : endOfCycle_LED s = Some s' -> quiet s s'.
Proof.
  unfold endOfCycle_LED. intros Hr. case_decide; [|injection Hr as <-; apply quiet_refl].
  eapply quiet_foldM, Hr. apply quiet_led_peaks.
Qed.

(** The path of [endOfCycle] in Pedestal mode when the means are not
    calculated yet: the chi2 block, the four modules, the flag. *)
Lemma endOfCycle_pedestal_path s s' :
  mMode s = 1 -> mFinalized s = false -> endOfCycle s = Some s' ->
  exists sa sb, endOfCycle_chi2 s = Some sa /\ foldM finalize_module sa modules = Some sb /\
                s' = set_mFinalized true sb.
Proof.
  intros Hm Hf He. unfold endOfCycle in He.
  apply bind_Some in He as (sa & Ea & He).
  destruct (quiet_endOfCycle_chi2 _ _ Ea) as [[(Hma & _) _] Hfa].
  rewrite decide_True in He by congruence. rewrite Hfa, Hf in He.
  apply bind_Some in He as (sb & Eb & He).
  pose proof (quiet_foldM _ _ _ _ quiet_finalize_module Eb) as [[(Hmb & _) _] _].
  unfold endOfCycle_LED in He. rewrite decide_False in He by (simpl; congruence).
  injection He as <-. by exists sa, sb.
Qed.

(** C10.  In Pedestal mode, [endOfCycle] on a task whose flag is set returns
    at once with the task as it is: no grid, no summary, no display range
    changes, and so does [endOfActivity]; and after any [endOfCycle], the
    [endOfCycle] that [endOfActivity] runs changes nothing. *)
Theorem endOfCycle_pedestal_idempotent (s : RawQcTask) :
  mMode s = 1 ->
  (mFinalized s = true -> endOfCycle s = Some s /\ endOfActivity s = Some s) /\
  (forall s1, endOfCycle s = Some s1 -> endOfActivity s1 = Some s1).
Proof.
  intros Hm.
  assert (Hret : forall s0, mMode s0 = 1 -> mFinalized s0 = true -> endOfCycle s0 = Some s0).
  { intros s0 Hm0 Hf0. unfold endOfCycle, endOfCycle_chi2. rewrite Hf0. simpl.
    destruct (mCheckChi2 s0); simpl; rewrite decide_True by done; by rewrite Hf0. }
  split.
  - intros Hf. unfold endOfActivity. by rewrite Hret.
  - intros s1 He. unfold endOfActivity. destruct (mFinalized s) eqn:Hf.
    + rewrite Hret in He by done. injection He as <-. by apply Hret.
    + destruct (endOfCycle_pedestal_path _ _ Hm Hf He) as (sa & sb & Ea & Eb & ->).
      apply Hret; [|done]. simpl.
      destruct (quiet_endOfCycle_chi2 _ _ Ea) as [[(Hma & _) _] _].
      pose proof (quiet_foldM _ _ _ _ quiet_finalize_module Eb) as [[(Hmb & _) _] _].
      congruence.
Qed.

End Boundaries.

(** ** Single records *)

Lemma lor_lt_pow2 (a b n : Z) :
  0 <= n -> 0 <= a < 2 ^ n -> 0 <= b < 2 ^ n -> 0 <= Z.lor a b < 2 ^ n.
Proof.
  intros Hn Ha Hb. split; [apply Z.lor_nonneg; lia|].
  destruct (decide (Z.lor a b = 0)) as [->|Hne]; [lia|].
  assert (0 <= Z.lor a b) by (apply Z.lor_nonneg; lia).
  apply Z.log2_lt_pow2; [lia|]. rewrite Z.log2_lor by lia.
  destruct (decide (a = 0)) as [->|?], (decide (b = 0)) as [->|?];
    try (rewrite Z.lor_0_l in Hne || rewrite Z.lor_0_r in Hne); try done.
  - simpl. rewrite Z.max_r by apply Z.log2_nonneg. apply Z.log2_lt_pow2; lia.
  - simpl. rewrite Z.max_l by apply Z.log2_nonneg. apply Z.log2_lt_pow2; lia.
  - apply Z.max_lub_lt; apply Z.log2_lt_pow2; lia.
Qed.

(** The mask of line 249 on a [short]: bit 14 is cleared, whatever it was,
    and the result is a [short] again. *)
Lemma clear_gain_bit_range (a : Z) :
  -32768 <= a < 32768 -> -32768 <= Z.land a (Z.lnot 16384) < 32768.
Proof.
  intros Ha. destruct (Z.le_gt_cases 0 a) as [Hpos|Hneg].
  - split.
    + rewrite <- Z.ldiff_land. transitivity 0; [lia|]. apply Z.ldiff_nonneg. by left.
    + rewrite <- Z.sub_land_same_l.
      assert (0 <= Z.land a 16384) by (apply Z.land_nonneg; by left). lia.
  - assert (Z.lnot (Z.land a (Z.lnot 16384)) = Z.lor (Z.lnot a) 16384) as Hl.
    { by rewrite Z.lnot_land, Z.lnot_involutive. }
    assert (0 <= Z.lnot a < 2 ^ 15) as Hna by (unfold Z.lnot; lia).
    pose proof (lor_lt_pow2 (Z.lnot a) 16384 15 ltac:(lia) Hna ltac:(lia)) as Hb.
    rewrite <- Hl in Hb. revert Hb. generalize (Z.land a (Z.lnot 16384)).
    intros r. unfold Z.lnot. lia.
Qed.

Lemma setbit_masked (a : Z) :
  Z.land (Z.setbit a 14) (Z.lnot 16384) = Z.land a (Z.lnot 16384).
Proof.
  apply Z.bits_inj'. intros n Hn.
  rewrite !Z.land_spec, Z.setbit_eqb by lia.
  rewrite Z.lnot_spec by done. change 16384 with (2 ^ 14).
  rewrite Z.pow2_bits_eqb by lia.
  destruct (Z.eqb_spec 14 n); simpl; [by rewrite !andb_false_r|done].
Qed.

Lemma wrap_small (w z : Z) : 0 < w -> - 2 ^ (w - 1) <= z < 2 ^ (w - 1) -> wrap w z = z.
Proof.
  intros Hw Hz. unfold wrap.
  assert (2 ^ w = 2 * 2 ^ (w - 1)) as ->.
  { rewrite <- Z.pow_succ_r by lia. f_equal. lia. }
  rewrite Z.mod_small; lia.
Qed.

Lemma clear_gain_bit (a : Z) :
  -32768 <= a < 32768 ->
  wrap 16 (Z.land a (Z.lnot (Z.shiftl 1 14))) = Z.clearbit a 14 /\
  wrap 16 (Z.land (Z.setbit a 14) (Z.lnot (Z.shiftl 1 14))) = Z.clearbit a 14.
Proof.
  intros Ha. change (Z.shiftl 1 14) with 16384. rewrite setbit_masked.
  rewrite wrap_small; [|done|by apply clear_gain_bit_range].
  rewrite Z.clearbit_spec', Z.ldiff_land. done.
Qed.

Section Records.

Context `{Collaborators}.

Local Open Scope Qc_scope.

(** C4.  A record whose energy, after the gain scaling, is below the
    occupancy threshold leaves the task as it is: the loop body returns the
    task it was given, and so does [FillPhysicsHistograms] on the batch made of
    this record. *)
Theorem physics_below_threshold_unchanged (s : RawQcTask) (c : Cell) :
  physics_energy c < kOcccupancyTh ->
  physics_cell s c = Some s /\
  FillPhysicsHistograms s [c] [mkTriggerRecord 0 1] = Some s.
Proof.
  intros Hlt.
  assert (Hc : physics_cell s c = Some s).
  { unfold physics_cell. rewrite decide_False; [done|].
    intros Hgt. by apply (Qclt_not_le _ _ Hlt), Qclt_le_weak. }
  split; [done|].
  unfold FillPhysicsHistograms, for_cells. simpl.
  rewrite seqZ_cons by done. simpl. rewrite seqZ_nil by done. simpl.
  unfold span_at. simpl. by rewrite Hc.
Qed.

(** C5.  A low-gain record of energy [e] is processed as the high-gain
    record of energy [16 * e] with the same address and time: the energy
    that is compared with the threshold and accumulated is [16 * e], and the
    two records give the same task. *)
Theorem physics_low_gain_rescaled (s : RawQcTask) (address : Z) (e t : Qc) :
  physics_energy (mkCell address e t false) = Qc_of_Z 16 * e /\
  physics_cell s (mkCell address e t false)
  = physics_cell s (mkCell address (Qc_of_Z 16 * e) t true).
Proof.
  assert (He : physics_energy (mkCell address e t false)
               = physics_energy (mkCell address (Qc_of_Z 16 * e) t true)).
  { unfold physics_energy. simpl. apply Qcmult_comm. }
  split; [rewrite He; done|].
  unfold physics_cell. rewrite He. simpl. done.
Qed.


End Records.

(** ** The error tally *)

Lemma land_lor_absorb (a b : Z) : Z.land (Z.lor a b) a = a.
Proof.
  apply Z.bits_inj'. intros n Hn. rewrite Z.land_spec, Z.lor_spec.
  by destruct (Z.testbit a n), (Z.testbit b n).
Qed.

Lemma land_superset_trans (a b c : Z) :
  Z.land b a = a -> Z.land c b = b -> Z.land c a = a.
Proof. intros Hab Hbc. rewrite <- Hab at 1. by rewrite Z.land_assoc, Hbc. Qed.

(** A value on an axis of unit bins from 0 falls in the bin after it. *)
Lemma FindBin_unit (n u : Z) :
  0 <= u < n -> TAxis.FindBin (TAxis.mk n 0%Qc (Qc_of_Z n)) (Qc_of_Z u) = u + 1.
Proof.
  intros Hu. unfold TAxis.FindBin. simpl.
  rewrite decide_False.
  2:{ apply Qcle_not_lt. rewrite <- Z2Qc_inj_0. apply (proj1 (Z2Qc_inj_le 0 u)). lia. }
  rewrite decide_True by (apply (proj1 (Z2Qc_inj_lt u n)); lia).
  replace (Qc_of_Z n * (Qc_of_Z u - 0) / (Qc_of_Z n - 0))%Qc with (Qc_of_Z u).
  - rewrite Qc_trunc_of_Z. lia.
  - field. rewrite <- Z2Qc_inj_0. intros E%Z2Qc_inj. lia.
Qed.

(** The grid of the two error histograms: 32 FEE cards by 15 DDLs. *)
Definition tally_grid : TH2F.t := TH2F.new 32 0%Qc (Qc_of_Z 32) 15 0%Qc (Qc_of_Z 15).

(** The cell of the error histograms for FEE card [u] and DDL [l]. *)
Definition tally_bin (u l : Z) : Z := (l + 1) * 34 + (u + 1).

(** The error histograms are there, with the binning of [InitHistograms]. *)
Definition error_ready (s : RawQcTask) : Prop :=
  exists hn ht, hist2D s kErrorNumber 0 = Some hn /\ hist2D s kErrorType 0 = Some ht /\
                shape hn = shape tally_grid /\ shape ht = shape tally_grid.

(** Number of errors and mask of error types recorded for [(u, l)]. *)
Definition error_count (s : RawQcTask) (u l : Z) : Qc :=
  from_option (fun h => TH2F.GetBinContent h (tally_bin u l)) 0%Qc (hist2D s kErrorNumber 0).

Definition error_type (s : RawQcTask) (u l : Z) : Z :=
  from_option (fun h => Qc_trunc (TH2F.GetBinContent h (tally_bin u l))) 0
              (hist2D s kErrorType 0).

Lemma tally_Fill (h : TH2F.t) (u l : Z) (w : Qc) :
  shape h = shape tally_grid -> 0 <= u < 32 -> 0 <= l < 15 ->
  TH2F.Fill h (Qc_of_Z u) (Qc_of_Z l) w
  = (TH2F.AddBinContent h (tally_bin u l) w, tally_bin u l).
Proof.
  intros [= Hx Hy _] Hu Hl. unfold TH2F.Fill. rewrite Hx, Hy. simpl.
  rewrite (FindBin_unit 32 u Hu), (FindBin_unit 15 l Hl).
  rewrite !decide_False by lia. done.
Qed.

Lemma tally_bin_range (h : TH2F.t) (u l : Z) :
  shape h = shape tally_grid -> 0 <= u < 32 -> 0 <= l < 15 ->
  0 <= tally_bin u l < TH2F.fNcells h /\
  (Z.to_nat (tally_bin u l) < length (TH2F.fArray h))%nat.
Proof.
  intros [= Hx Hy Hlen] Hu Hl. unfold TH2F.fNcells, tally_bin. rewrite Hx, Hy, Hlen. simpl.
  lia.
Qed.

Lemma fNcells_AddBinContent (h : TH2F.t) (bin : Z) (w : Qc) :
  TH2F.fNcells (TH2F.AddBinContent h bin w) = TH2F.fNcells h.
Proof. unfold TH2F.AddBinContent. by case_decide. Qed.

Lemma fNcells_SetBinContent (h : TH2F.t) (bin : Z) (c : Qc) :
  TH2F.fNcells (TH2F.SetBinContent h bin c) = TH2F.fNcells h.
Proof. unfold TH2F.SetBinContent, TH2F.UpdateBinContent. by repeat case_decide. Qed.

Lemma GetBinContent_AddBinContent (h : TH2F.t) (bin : Z) (w : Qc) :
  0 <= bin < TH2F.fNcells h -> (Z.to_nat bin < length (TH2F.fArray h))%nat ->
  TH2F.GetBinContent (TH2F.AddBinContent h bin w) bin = (TH2F.GetBinContent h bin + w)%Qc.
Proof.
  intros Hb Hlen. unfold TH2F.GetBinContent, TH2F.RetrieveBinContent.
  rewrite fNcells_AddBinContent. unfold TH2F.AddBinContent.
  repeat case_decide; try lia. simpl.
  rewrite list_lookup_alter_eq. destruct (lookup_lt_is_Some_2 _ _ Hlen) as [c ->]. done.
Qed.

Lemma GetBinContent_SetBinContent (h : TH2F.t) (bin : Z) (c : Qc) :
  0 <= bin < TH2F.fNcells h -> (Z.to_nat bin < length (TH2F.fArray h))%nat ->
  TH2F.GetBinContent (TH2F.SetBinContent h bin c) bin = c.
Proof.
  intros Hb Hlen. unfold TH2F.GetBinContent, TH2F.RetrieveBinContent.
  rewrite fNcells_SetBinContent. unfold TH2F.SetBinContent, TH2F.UpdateBinContent.
  repeat case_decide; try lia. simpl.
  by rewrite list_lookup_insert_eq.
Qed.

Lemma shl1_small (n : Z) : 0 <= n < 31 -> shl1 n = Some (Z.shiftl 1 n) /\ 0 <= Z.shiftl 1 n < 2 ^ 31.
Proof.
  intros Hn. rewrite Z.shiftl_1_l.
  assert (0 < 2 ^ n < 2 ^ 31).
  { split; [apply Z.pow_pos_nonneg; lia|apply Z.pow_lt_mono_r; lia]. }
  split; [|lia]. unfold shl1. rewrite decide_True by lia. f_equal.
  rewrite Z.shiftl_1_l. unfold wrap. change (32 - 1) with 31.
  rewrite Z.mod_small; [lia|]. change (2 ^ 32) with (2 ^ 31 + 2 ^ 31). lia.
Qed.

(** One error record in the range of the tally. *)
Lemma monitor_error_in_range (s : RawQcTask) (e : RawReaderError) :
  error_ready s ->
  0 <= getFEC e < 32 -> 0 <= getDDL e < 15 -> 0 <= getError e < 31 ->
  0 <= error_type s (getFEC e) (getDDL e) < 2 ^ 31 ->
  exists s', monitor_error s e = Some s' /\ error_ready s' /\
    error_count s' (getFEC e) (getDDL e) = (error_count s (getFEC e) (getDDL e) + 1)%Qc /\
    error_type s' (getFEC e) (getDDL e)
    = Z.lor (error_type s (getFEC e) (getDDL e)) (Z.shiftl 1 (getError e)) /\
    0 <= error_type s' (getFEC e) (getDDL e) < 2 ^ 31.
Proof.
  intros (hn & ht & Hn & Ht & Sn & St) Hu Hl He Hm.
  destruct (tally_bin_range hn _ _ Sn Hu Hl) as [Hbn Hln].
  destruct (tally_bin_range ht _ _ St Hu Hl) as [Hbt Hlt].
  destruct (shl1_small _ He) as [Hs Hbit].
  unfold error_type in Hm. rewrite Ht in Hm. simpl in Hm.
  unfold monitor_error. rewrite Hn. simpl. rewrite (tally_Fill hn _ _ _ Sn Hu Hl).
  rewrite hist2D_put2D_ne by done. rewrite Ht. simpl.
  unfold to_int. rewrite decide_True by (unfold int_range; lia). simpl.
  rewrite Hs. simpl. eexists. split; [done|].
  unfold error_count, error_type, error_ready.
  rewrite hist2D_put2D_eq, hist2D_put2D_ne, hist2D_put2D_eq by done. rewrite Hn, Ht. simpl.
  split; [|split; [|split]].
  - do 2 eexists. repeat split; try done.
    + by rewrite shape_AddBinContent.
    + by rewrite shape_SetBinContent.
  - by apply GetBinContent_AddBinContent.
  - rewrite GetBinContent_SetBinContent by done. apply Qc_trunc_of_Z.
  - rewrite GetBinContent_SetBinContent by done. rewrite Qc_trunc_of_Z.
    apply lor_lt_pow2; lia.
Qed.


(** [tally_le s s']: every cell of the error count of [s'] is at least the
    cell of [s], and every cell of the error-type mask of [s'] has the bits
    of the cell of [s]. *)
Definition tally_le (s s' : RawQcTask) : Prop :=
  (forall i c, cell2D s kErrorNumber 0 i = Some c ->
     exists c', cell2D s' kErrorNumber 0 i = Some c' /\ (c <= c')%Qc) /\
  (forall i t, cell2D s kErrorType 0 i = Some t ->
     exists t', cell2D s' kErrorType 0 i = Some t' /\
                Z.land (Qc_trunc t') (Qc_trunc t) = Qc_trunc t).

Lemma tally_le_refl s : tally_le s s.
Proof.
  split; intros i c Hc; exists c; (split; [done|]);
    [apply Qcle_refl|apply Z.land_diag].
Qed.

Lemma tally_le_trans s1 s2 s3 : tally_le s1 s2 -> tally_le s2 s3 -> tally_le s1 s3.
Proof.
  intros [Hc Ht] [Hc' Ht']. split.
  - intros i c H1. destruct (Hc _ _ H1) as (c1 & H2 & ?).
    destruct (Hc' _ _ H2) as (c2 & ? & ?). exists c2. split; [done|].
    by eapply Qcle_trans.
  - intros i t H1. destruct (Ht _ _ H1) as (t1 & H2 & ?).
    destruct (Ht' _ _ H2) as (t2 & ? & ?). exists t2. split; [done|].
    by eapply land_superset_trans.
Qed.

Lemma calm_tally_le s s' : calm s s' -> tally_le s s'.
Proof.
  intros (_ & Hn & Ht). unfold tally_le, cell2D. rewrite Hn, Ht. apply (tally_le_refl s).
Qed.

Lemma Fill_fst (h : TH2F.t) (x y w : Qc) :
  exists bin, (TH2F.Fill h x y w).1 = TH2F.AddBinContent h bin w.
Proof. unfold TH2F.Fill. eexists. repeat case_decide; done. Qed.

Lemma AddBinContent_cell_le (h : TH2F.t) (bin : Z) (i : nat) (c : Qc) :
  TH2F.fArray h !! i = Some c ->
  exists c', TH2F.fArray (TH2F.AddBinContent h bin 1%Qc) !! i = Some c' /\ (c <= c')%Qc.
Proof.
  intros Hc. unfold TH2F.AddBinContent. case_decide; simpl.
  - destruct (decide (Z.to_nat bin = i)) as [->|Hne].
    + rewrite list_lookup_alter_eq, Hc. simpl. eexists. split; [done|].
      rewrite <- (Qcplus_0_r c) at 1. by apply Qcplus_le_mono_l.
    + rewrite list_lookup_alter_ne by done. exists c. split; [done|apply Qcle_refl].
  - exists c. split; [done|apply Qcle_refl].
Qed.

Lemma SetBinContent_mask (h : TH2F.t) (ibin bit : Z) (i : nat) (t : Qc) :
  TH2F.fArray h !! i = Some t ->
  exists t',
    TH2F.fArray (TH2F.SetBinContent h ibin
       (Qc_of_Z (Z.lor (Qc_trunc (TH2F.GetBinContent h ibin)) bit))) !! i = Some t' /\
    Z.land (Qc_trunc t') (Qc_trunc t) = Qc_trunc t.
Proof.
  intros Ht. unfold TH2F.SetBinContent, TH2F.UpdateBinContent.
  case_decide as Hr; [|exists t; split; [done|apply Z.land_diag]].
  rewrite decide_True by lia. simpl.
  destruct (decide (Z.to_nat ibin = i)) as [<-|Hne].
  - rewrite list_lookup_insert_eq by by eapply lookup_lt_Some.
    eexists. split; [done|]. rewrite Qc_trunc_of_Z.
    unfold TH2F.GetBinContent, TH2F.RetrieveBinContent.
    repeat case_decide; try lia. rewrite Ht. simpl. apply land_lor_absorb.
  - rewrite list_lookup_insert_ne by done. exists t. split; [done|apply Z.land_diag].
Qed.

Lemma tally_le_monitor_error s e s' : monitor_error s e = Some s' -> tally_le s s'.
Proof.
  unfold monitor_error. intros Hm.
  apply bind_Some in Hm as (hn & Hn & Hm).
  destruct (TH2F.Fill hn _ _ _) as [hn' ibin] eqn:Hfill.
  apply bind_Some in Hm as (ht & Ht & Hm).
  apply bind_Some in Hm as (cont & Hcont & Hm).
  apply bind_Some in Hm as (bit & Hbit & Hm).
  injection Hm as <-.
  rewrite hist2D_put2D_ne in Ht by done.
  unfold to_int in Hcont. case_decide; [|done]. injection Hcont as <-.
  destruct (Fill_fst hn (Qc_of_Z (getFEC e)) (Qc_of_Z (getDDL e)) 1%Qc) as [bin Hbin].
  rewrite Hfill in Hbin. simpl in Hbin. subst hn'.
  split; intros i c Hc; unfold cell2D in *.
  - rewrite hist2D_put2D_ne, hist2D_put2D_eq by done. rewrite Hn in Hc. simpl in *.
    by apply AddBinContent_cell_le.
  - rewrite hist2D_put2D_eq by done. rewrite Ht in Hc. simpl in *.
    by apply SetBinContent_mask.
Qed.

Section Monotone.

Context `{Collaborators}.

Lemma calm_FillPedestalHistograms s cells cellsTR s' :
  FillPedestalHistograms s cells cellsTR = Some s' -> calm s s'.
Proof.
  unfold FillPedestalHistograms. intros Hf. apply bind_Some in Hf as (s0 & Hr & Hf).
  eapply calm_trans; [|by eapply quiet_calm, quiet_for_cells, Hf; apply quiet_pedestal_cell].
  unfold FillPedestal_restore in Hr. destruct (mFinalized s); [|injection Hr as <-; apply calm_refl].
  apply bind_Some in Hr as (s1 & Hr & [= <-]).
  eapply calm_trans; [|apply calm_set_mFinalized].
  eapply quiet_calm, quiet_foldM, Hr. apply quiet_restore_module.
Qed.

Lemma calm_startOfCycle s s' : startOfCycle s = Some s' -> calm s s'.
Proof.
  unfold startOfCycle. intros Hs. apply bind_Some in Hs as (s0 & Hc & Hs).
  assert (calm s s0) as Hc0.
  { unfold startOfCycle_chi2 in Hc.
    destruct (mCheckChi2 s); [|injection Hc as <-; apply calm_refl].
    destruct (mFinalized s); [|injection Hc as <-; apply calm_refl].
    apply bind_Some in Hc as (s1 & Hc & [= <-]).
    assert (quiet s s1) as Hq.
    { eapply quiet_foldM, Hc. intros s2 m s3 Hs2. cbv beta in Hs2.
      destruct (hist2D s2 kChi2M1 m); [|injection Hs2 as <-; apply quiet_refl].
      eapply quiet_Multiply2D; [eassumption|split; discriminate]. }
    eapply calm_trans; [by apply quiet_calm|].
    destruct (decide (mMode s1 ≠ 1)); [apply calm_set_mFinalized|apply calm_refl]. }
  eapply calm_trans; [exact Hc0|].
  case_decide; [|injection Hs as <-; apply calm_refl].
  destruct (mFinalized s0); [|injection Hs as <-; apply calm_refl].
  apply bind_Some in Hs as (s1 & Hs & [= <-]).
  eapply calm_trans; [|apply calm_set_mFinalized].
  eapply quiet_calm, quiet_foldM, Hs. apply quiet_unfinalize_module.
Qed.

Lemma calm_endOfCycle s s' : endOfCycle s = Some s' -> calm s s'.
Proof.
  unfold endOfCycle. intros He. apply bind_Some in He as (s0 & Hc & He).
  eapply calm_trans; [by eapply quiet_calm, quiet_endOfCycle_chi2|].
  case_decide; [|by eapply quiet_calm, quiet_endOfCycle_LED].
  destruct (mFinalized s0); [injection He as <-; apply calm_refl|].
  apply bind_Some in He as (s1 & Hf & He).
  eapply calm_trans; [eapply quiet_calm, quiet_foldM, Hf; apply quiet_finalize_module|].
  eapply calm_trans; [apply (calm_set_mFinalized s1 true)|].
  by eapply quiet_calm, quiet_endOfCycle_LED.
Qed.

Lemma tally_le_monitorData s ctx s' : monitorData s ctx = Some s' -> tally_le s s'.
Proof.
  unfold monitorData. intros Hm.
  apply bind_Some in Hm as (s1 & H1 & Hm).
  apply bind_Some in Hm as (s2 & H2 & Hm).
  apply bind_Some in Hm as (s3 & H3 & Hm).
  apply bind_Some in Hm as (s4 & H4 & Hm).
  apply bind_Some in Hm as (s5 & H5 & Hm).
  eapply tally_le_trans.
  { eapply (foldM_rel tally_le), H1;
      [apply tally_le_refl|apply tally_le_trans|apply tally_le_monitor_error]. }
  apply calm_tally_le.
  eapply calm_trans; [by eapply quiet_calm, quiet_monitor_badmap|].
  eapply calm_trans.
  { destruct (mCheckChi2 s2); [by eapply quiet_calm, quiet_monitor_chi2|].
    injection H3 as <-. apply calm_refl. }
  eapply calm_trans.
  { destruct (decide (mMode s3 = 0)); [by eapply quiet_calm, quiet_FillPhysicsHistograms|].
    injection H4 as <-. apply calm_refl. }
  eapply calm_trans.
  { destruct (decide (mMode s4 = 1)); [by eapply calm_FillPedestalHistograms|].
    injection H5 as <-. apply calm_refl. }
  destruct (decide (mMode s5 = 2)); [by eapply quiet_calm, quiet_FillLEDHistograms|].
  injection Hm as <-. apply calm_refl.
Qed.

(** The calls of the per-cycle processing. *)
Inductive cycle_call : Type :=
  | StartOfCycle
  | MonitorData (ctx : ProcessingContext)
  | EndOfCycle.

Definition run_call (s : RawQcTask) (call : cycle_call) : option RawQcTask :=
  match call with
  | StartOfCycle => startOfCycle s
  | MonitorData ctx => monitorData s ctx
  | EndOfCycle => endOfCycle s
  end.


End Monotone.

(** ** The Pedestal grids *)

(** The value grids of the Pedestal mode, each with its occupancy grid. *)
Definition pedestal_pairs : list (Hist2D * Hist2D) :=
  [(kHGmeanM1, kHGoccupM1); (kHGrmsM1, kHGoccupM1);
   (kLGmeanM1, kLGoccupM1); (kLGrmsM1, kLGoccupM1)].

Definition pedestal_summaries : list Hist1D :=
  [kHGmeanSummaryM1; kHGrmsSummaryM1; kLGmeanSummaryM1; kLGrmsSummaryM1].

Definition occupancy_of (k : Hist2D) : option Hist2D :=
  match k with
  | kHGmeanM1 | kHGrmsM1 => Some kHGoccupM1
  | kLGmeanM1 | kLGrmsM1 => Some kLGoccupM1
  | _ => None
  end.

Definition pair_ready (s : RawQcTask) (p : Hist2D * Hist2D) (m : Z) : bool :=
  match hist2D s p.1 m, hist2D s p.2 m with
  | Some hv, Some ho => bool_decide (TH2F.same_bins hv ho)
  | _, _ => false
  end.

(** The histograms of the Pedestal mode are there for the four modules, each
    value grid with as many bins as its occupancy grid (as
    [CreatePedestalHistograms] leaves them). *)
Definition pedestal_ready (s : RawQcTask) : Prop :=
  forallb (fun m =>
    forallb (fun p => pair_ready s p m) pedestal_pairs
    && forallb (fun k => bool_decide (is_Some (hist1D s k m))) pedestal_summaries)
    modules = true.

Lemma modules_spec (m : Z) : In m modules <-> 0 <= m < 4.
Proof. unfold modules. simpl. lia. Qed.

Lemma pedestal_ready_pair s kv ko m :
  pedestal_ready s -> 0 <= m < 4 -> In (kv, ko) pedestal_pairs ->
  exists hv ho, hist2D s kv m = Some hv /\ hist2D s ko m = Some ho /\ TH2F.same_bins hv ho.
Proof.
  intros Hr Hm Hp. unfold pedestal_ready in Hr. rewrite forallb_forall in Hr.
  specialize (Hr m (proj2 (modules_spec m) Hm)). apply andb_true_iff in Hr as [Hr _].
  rewrite forallb_forall in Hr. specialize (Hr _ Hp). unfold pair_ready in Hr. simpl in Hr.
  destruct (hist2D s kv m) as [hv|]; [|done]. destruct (hist2D s ko m) as [ho|]; [|done].
  exists hv, ho. by apply bool_decide_eq_true in Hr.
Qed.

Lemma pedestal_ready_summary s k m :
  pedestal_ready s -> 0 <= m < 4 -> In k pedestal_summaries -> is_Some (hist1D s k m).
Proof.
  intros Hr Hm Hk. unfold pedestal_ready in Hr. rewrite forallb_forall in Hr.
  specialize (Hr m (proj2 (modules_spec m) Hm)). apply andb_true_iff in Hr as [_ Hr].
  rewrite forallb_forall in Hr. specialize (Hr _ Hk). by apply bool_decide_eq_true in Hr.
Qed.

Lemma pedestal_ready_keeps s s' : keeps s s' -> pedestal_ready s -> pedestal_ready s'.
Proof.
  intros (_ & _ & H2 & H1) Hr. unfold pedestal_ready.
  apply forallb_forall. intros m Hm%modules_spec. apply andb_true_iff. split.
  - apply forallb_forall. intros [kv ko] Hp.
    destruct (pedestal_ready_pair s kv ko m Hr Hm Hp) as (hv & ho & Hv & Ho & Hb).
    destruct (H2 _ _ _ Hv) as (hv' & Hv' & Sv). destruct (H2 _ _ _ Ho) as (ho' & Ho' & So).
    unfold pair_ready. simpl. rewrite Hv', Ho'. apply bool_decide_eq_true.
    by eapply shape_same_bins.
  - apply forallb_forall. intros k Hk. apply bool_decide_eq_true, H1.
    by apply pedestal_ready_summary.
Qed.

(** What a call on a histogram does to the bank. *)
Lemma call2D_lookup s k m f s' :
  call2D s k m f = Some s' ->
  forall k' m', hist2D s' k' m'
                = if decide ((k, m) = (k', m')) then f <$> hist2D s k m else hist2D s k' m'.
Proof.
  intros (h & Hh & ->)%call2D_Some k' m'. case_decide as Heq.
  - injection Heq as <- <-. rewrite Hh. apply hist2D_put2D_eq. by eapply hist2D_range.
  - by apply hist2D_put2D_ne.
Qed.

(** A loop over the modules whose body rewrites the histograms of its
    module only, as a function [F] of the histograms of that module. *)
Lemma foldM_modules_lookup (step : RawQcTask -> Z -> option RawQcTask)
    (F : (Hist2D -> option TH2F.t) -> Hist2D -> option TH2F.t) :
  (forall v v' k, (forall k', v k' = v' k') -> F v k = F v' k) ->
  (forall s m s', step s m = Some s' ->
     forall k m', hist2D s' k m'
                  = if decide (m' = m) then F (fun k' => hist2D s k' m) k else hist2D s k m') ->
  forall l s s', NoDup l -> foldM step s l = Some s' ->
    forall k m', hist2D s' k m'
                 = if decide (m' ∈ l) then F (fun k' => hist2D s k' m') k else hist2D s k m'.
Proof.
  intros HF Hstep l. induction l as [|a l IH]; intros s s' Hnd Hf k m'; simpl in Hf.
  - injection Hf as <-. rewrite decide_False; [done|]. apply not_elem_of_nil.
  - destruct (step s a) as [s1|] eqn:Ha; [|done].
    apply NoDup_cons in Hnd as [Hal Hnd].
    rewrite (IH _ _ Hnd Hf). destruct (decide (m' = a)) as [->|Hne].
    + rewrite decide_False by done.
      rewrite decide_True by apply list_elem_of_here.
      rewrite (Hstep _ _ _ Ha). by rewrite decide_True.
    + assert (Hview : forall k', hist2D s1 k' m' = hist2D s k' m').
      { intros k'. rewrite (Hstep _ _ _ Ha). by rewrite decide_False. }
      case_decide as Hin.
      * rewrite decide_True by by apply list_elem_of_further. by apply HF.
      * rewrite decide_False; [apply Hview|].
        intros [?|?]%elem_of_cons; congruence.
Qed.

(** The grids of a module after [Multiply] by the occupancy. *)
Definition restored (v : Hist2D -> option TH2F.t) (k : Hist2D) : option TH2F.t :=
  match occupancy_of k with
  | Some ko => (fun h => TH2F.Multiply h (v ko)) <$> v k
  | None => v k
  end.

Section Restore.

Context `{Collaborators}.

Lemma restore_module_lookup s m s' :
  restore_module s m = Some s' ->
  forall k m', hist2D s' k m'
               = if decide (m' = m) then restored (fun k' => hist2D s k' m) k
                 else hist2D s k m'.
Proof.
  unfold restore_module, Multiply2D. intros Hr.
  apply bind_Some in Hr as (s1 & H1 & Hr). apply bind_Some in Hr as (s2 & H2 & Hr).
  apply bind_Some in Hr as (s3 & H3 & H4).
  pose proof (call2D_lookup _ _ _ _ _ H1) as L1. pose proof (call2D_lookup _ _ _ _ _ H2) as L2.
  pose proof (call2D_lookup _ _ _ _ _ H3) as L3. pose proof (call2D_lookup _ _ _ _ _ H4) as L4.
  intros k m'. rewrite L4, !L3, !L2, !L1. unfold restored.
  destruct k; simpl; repeat case_decide; try congruence; done.
Qed.

Lemma restore_fold_lookup s s' :
  foldM restore_module s modules = Some s' ->
  forall k m, hist2D s' k m = restored (fun k' => hist2D s k' m) k.
Proof.
  intros Hf k m.
  rewrite (foldM_modules_lookup restore_module restored) with (s := s) (l := modules).
  - case_decide as Hin; [done|]. unfold restored.
    assert (Hnone : forall k', hist2D s k' m = None).
    { intros k'. unfold hist2D. rewrite decide_False; [done|].
      by rewrite <- modules_spec, <- list_elem_of_In. }
    rewrite !Hnone. by destruct (occupancy_of k).
  - intros v v' k0 Hv. unfold restored. rewrite !Hv. by destruct (occupancy_of k0); rewrite ?Hv.
  - apply restore_module_lookup.
  - unfold modules. repeat constructor; set_solver.
  - done.
Qed.

Lemma restore_module_total s m :
  pedestal_ready s -> 0 <= m < 4 -> is_Some (restore_module s m).
Proof.
  intros Hr Hm. unfold restore_module, Multiply2D.
  assert (Hv : forall kv ko, In (kv, ko) pedestal_pairs -> is_Some (hist2D s kv m)).
  { intros kv ko Hp. destruct (pedestal_ready_pair s kv ko m Hr Hm Hp) as (hv & _ & -> & _).
    by eexists. }
  destruct (call2D_is_Some s kHGmeanM1 m
    (fun h => TH2F.Multiply h (hist2D s kHGoccupM1 m))) as [s1 H1].
  { apply (Hv _ kHGoccupM1). simpl. tauto. }
  rewrite H1. simpl. pose proof (call2D_lookup _ _ _ _ _ H1) as L1.
  destruct (call2D_is_Some s1 kHGrmsM1 m
    (fun h => TH2F.Multiply h (hist2D s1 kHGoccupM1 m))) as [s2 H2].
  { rewrite L1, decide_False by done. apply (Hv _ kHGoccupM1). simpl. tauto. }
  rewrite H2. simpl. pose proof (call2D_lookup _ _ _ _ _ H2) as L2.
  destruct (call2D_is_Some s2 kLGmeanM1 m
    (fun h => TH2F.Multiply h (hist2D s2 kLGoccupM1 m))) as [s3 H3].
  { rewrite L2, decide_False by done. rewrite L1, decide_False by done.
    apply (Hv _ kLGoccupM1). simpl. tauto. }
  rewrite H3. simpl. pose proof (call2D_lookup _ _ _ _ _ H3) as L3.
  apply call2D_is_Some.
  rewrite L3, decide_False by done. rewrite L2, decide_False by done.
  rewrite L1, decide_False by done. apply (Hv _ kLGoccupM1). simpl. tauto.
Qed.

Lemma restore_fold_total s :
  pedestal_ready s -> exists s', foldM restore_module s modules = Some s' /\ pedestal_ready s'.
Proof.
  apply (foldM_total pedestal_ready). intros s1 m Hm Hr.
  apply list_elem_of_In, modules_spec in Hm.
  destruct (restore_module_total s1 m Hr Hm) as [s2 H2]. exists s2. split; [done|].
  eapply pedestal_ready_keeps; [|done]. eapply quiet_keeps, quiet_restore_module, H2.
Qed.

(** A cell of a restored value grid is the cell times the occupancy. *)
Lemma restored_cell s s' kv ko m i v n :
  (forall k m, hist2D s' k m = restored (fun k' => hist2D s k' m) k) ->
  pedestal_ready s -> In (kv, ko) pedestal_pairs ->
  cell2D s kv m i = Some v -> cell2D s ko m i = Some n ->
  cell2D s' kv m i = Some (mul_cell v n) /\ cell2D s' ko m i = Some n.
Proof.
  intros Hl Hr Hp Hv Hn. unfold cell2D in *.
  apply bind_Some in Hv as (hv & Hhv & Hv). apply bind_Some in Hn as (ho & Hho & Hn).
  destruct (pedestal_ready_pair s kv ko m Hr (hist2D_range _ _ _ _ Hhv) Hp)
    as (hv' & ho' & ? & ? & Hb).
  simplify_eq. rewrite !Hl. unfold restored.
  assert (occupancy_of kv = Some ko /\ occupancy_of ko = None) as [-> ->].
  { simpl in Hp. destruct Hp as [|[|[|[|[]]]]]; simplify_eq; done. }
  rewrite Hhv, Hho. simpl. split; [|done]. by apply Multiply_cell.
Qed.


End Restore.

(** ** Materialized means and back *)

(** [same2D s s']: the two-dimensional histograms of [s'] are those of [s]. *)
Definition same2D (s s' : RawQcTask) : Prop :=
  forall k m, hist2D s' k m = hist2D s k m.

Lemma same2D_refl s : same2D s s.
Proof. by intros k m. Qed.

Lemma same2D_trans s1 s2 s3 : same2D s1 s2 -> same2D s2 s3 -> same2D s1 s3.
Proof. intros H1 H2 k m. by rewrite H2, H1. Qed.

Lemma same2D_call1D s k m f s' : call1D s k m f = Some s' -> same2D s s'.
Proof. intros Hc k' m'. by eapply call1D_hist2D. Qed.

Section RoundTrip.

Context `{Collaborators}.

Lemma same2D_scan_cell kmean krms koccup kmeansum krmssum m acc iz ix acc' :
  scan_cell kmean krms koccup kmeansum krmssum m acc iz ix = Some acc' ->
  same2D acc.1 acc'.1.
Proof.
  unfold scan_cell. destruct acc as [s [occMin occMax]]. intros Hs.
  run_all; simpl;
    repeat first [ apply same2D_refl
                 | eapply same2D_call1D; eassumption
                 | eapply same2D_trans; [eapply same2D_call1D; eassumption|] ].
Qed.

Lemma same2D_scan kmean krms koccup kmeansum krmssum m acc acc' :
  foldM (fun acc iz =>
           foldM (fun acc ix => scan_cell kmean krms koccup kmeansum krmssum m acc iz ix)
                 acc (seqZ 1 56)) acc (seqZ 1 64) = Some acc' ->
  same2D acc.1 acc'.1.
Proof.
  apply (foldM_rel (fun a b => same2D a.1 b.1));
    [intros; apply same2D_refl|intros ? ? ?; apply same2D_trans|].
  intros a iz b.
  apply (foldM_rel (fun a b => same2D a.1 b.1));
    [intros; apply same2D_refl|intros ? ? ?; apply same2D_trans|].
  intros a1 ix b1. apply same2D_scan_cell.
Qed.

(** The grids of one gain of module [m0] after [finalize_gain]: mean and RMS
    divided by the occupancy, the occupancy with a new display range. *)
Lemma finalize_gain_lookup kmean krms koccup kmeansum krmssum s m0 s' :
  kmean <> krms -> kmean <> koccup -> krms <> koccup ->
  is_Some (hist2D s kmean m0) ->
  finalize_gain kmean krms koccup kmeansum krmssum s m0 = Some s' ->
  exists occMin occMax, forall k m,
    hist2D s' k m =
    if decide (m = m0) then
      if decide (k = kmean \/ k = krms)
      then (fun h => TH2F.Divide h (hist2D s koccup m0)) <$> hist2D s k m0
      else if decide (k = koccup)
           then (fun h => TH2F.SetMaximum (TH2F.SetMinimum h occMin) occMax) <$> hist2D s k m0
           else hist2D s k m0
    else hist2D s k m.
Proof.
  intros Hmr Hmo Hro [hm Hm]. unfold finalize_gain, Divide2D. rewrite Hm. intros Hf.
  apply bind_Some in Hf as (s1 & H1 & Hf). apply bind_Some in Hf as (s2 & H2 & Hf).
  apply bind_Some in Hf as (s3 & H3 & Hf). apply bind_Some in Hf as (s4 & H4 & Hf).
  apply bind_Some in Hf as ([s5 [occMin occMax]] & Hscan & Hf).
  apply bind_Some in Hf as (s6 & H6 & H7).
  exists occMin, occMax.
  pose proof (call2D_lookup _ _ _ _ _ H1) as L1. pose proof (call2D_lookup _ _ _ _ _ H2) as L2.
  pose proof (same2D_call1D _ _ _ _ _ H3) as L3. pose proof (same2D_call1D _ _ _ _ _ H4) as L4.
  pose proof (same2D_scan _ _ _ _ _ _ _ _ Hscan) as L5. simpl in L5.
  pose proof (call2D_lookup _ _ _ _ _ H6) as L6. pose proof (call2D_lookup _ _ _ _ _ H7) as L7.
  intros k m. rewrite L7, !L6, !L5, !L4, !L3, !L2, !L1.
  repeat case_decide; try solve [exfalso; intuition congruence]; subst;
    try solve [by destruct (hist2D s koccup m0)]; try solve [simplify_eq; done]; try done.
Qed.

End RoundTrip.

Section Finalize.

Context `{Collaborators}.

Lemma pedestal_pair_cases kv ko :
  In (kv, ko) pedestal_pairs ->
  (kv = kHGmeanM1 /\ ko = kHGoccupM1) \/ (kv = kHGrmsM1 /\ ko = kHGoccupM1) \/
  (kv = kLGmeanM1 /\ ko = kLGoccupM1) \/ (kv = kLGrmsM1 /\ ko = kLGoccupM1).
Proof. simpl. intros [|[|[|[|[]]]]]; simplify_eq; tauto. Qed.

(** The cells of the Pedestal grids after one module is materialized. *)
Lemma finalize_module_cells s m0 s' :
  pedestal_ready s -> 0 <= m0 < 4 -> finalize_module s m0 = Some s' ->
  forall kv ko m i v n, In (kv, ko) pedestal_pairs ->
    cell2D s kv m i = Some v -> cell2D s ko m i = Some n ->
    cell2D s' kv m i = Some (if decide (m = m0) then div_cell v n else v) /\
    cell2D s' ko m i = Some n.
Proof.
  intros Hr Hm0 Hf. unfold finalize_module in Hf.
  apply bind_Some in Hf as (s1 & Hhg & Hlg).
  assert (Hex : forall kv ko, In (kv, ko) pedestal_pairs -> is_Some (hist2D s kv m0)).
  { intros kv ko Hp. destruct (pedestal_ready_pair s kv ko m0 Hr Hm0 Hp) as (hv & _ & -> & _).
    by eexists. }
  destruct (finalize_gain_lookup kHGmeanM1 kHGrmsM1 kHGoccupM1
              kHGmeanSummaryM1 kHGrmsSummaryM1 s m0 s1)
    as (mn1 & mx1 & L1); try discriminate; try done.
  { apply (Hex kHGmeanM1 kHGoccupM1). simpl. tauto. }
  assert (is_Some (hist2D s1 kLGmeanM1 m0)) as Hlgm.
  { rewrite L1. rewrite decide_True by done.
    rewrite decide_False by (intros [?|?]; discriminate). rewrite decide_False by discriminate.
    apply (Hex kLGmeanM1 kLGoccupM1). simpl. tauto. }
  destruct (finalize_gain_lookup kLGmeanM1 kLGrmsM1 kLGoccupM1
              kLGmeanSummaryM1 kLGrmsSummaryM1 s1 m0 s')
    as (mn2 & mx2 & L2); try discriminate; try done.
  intros kv ko m i v n Hp Hv Hn. unfold cell2D in *.
  apply bind_Some in Hv as (hv & Hhv & Hv). apply bind_Some in Hn as (ho & Hho & Hn).
  destruct (pedestal_ready_pair s kv ko m Hr (hist2D_range _ _ _ _ Hhv) Hp)
    as (hv' & ho' & ? & ? & Hb). simplify_eq.
  rewrite !L2, !L1.
  destruct (decide (m = m0)) as [->|Hne]; [|by rewrite Hhv, Hho].
  destruct (pedestal_pair_cases _ _ Hp) as [[-> ->]|[[-> ->]|[[-> ->]|[-> ->]]]];
    repeat case_decide; try solve [exfalso; intuition congruence];
    rewrite ?Hhv, ?Hho; (split; [exact (Divide_cell _ _ _ _ _ Hb Hv Hn)|done]).
Qed.

Lemma scan_cell_total kmean krms koccup kmeansum krmssum m acc iz ix :
  is_Some (hist2D acc.1 kmean m) -> is_Some (hist2D acc.1 krms m) ->
  is_Some (hist2D acc.1 koccup m) ->
  is_Some (hist1D acc.1 kmeansum m) -> is_Some (hist1D acc.1 krmssum m) ->
  is_Some (scan_cell kmean krms koccup kmeansum krmssum m acc iz ix).
Proof.
  destruct acc as [s [occMin occMax]]. simpl.
  intros [hm Hm] [hr Hr] [ho Ho] Hms Hrs. unfold scan_cell. rewrite Hm. simpl.
  assert (exists s1, (if decide (0 < TH2F.GetBinContent2 hm iz ix)%Qc
                      then call1D s kmeansum m (fun h => TH1F.Fill h (TH2F.GetBinContent2 hm iz ix))
                      else Some s) = Some s1 /\ keeps s s1 /\ same2D s s1) as (s1 & -> & K1 & S1).
  { case_decide.
    - destruct (call1D_is_Some s kmeansum m
        (fun h => TH1F.Fill h (TH2F.GetBinContent2 hm iz ix)) Hms) as [s1 E1].
      exists s1. split; [done|]. split; [by eapply keeps_call1D|by eapply same2D_call1D].
    - exists s. split; [done|]. split; [apply keeps_refl|apply same2D_refl]. }
  simpl. rewrite S1, Hr. simpl.
  assert (exists s2, (if decide (0 < TH2F.GetBinContent2 hr iz ix)%Qc
                      then call1D s1 krmssum m (fun h => TH1F.Fill h (TH2F.GetBinContent2 hr iz ix))
                      else Some s1) = Some s2 /\ same2D s1 s2) as (s2 & -> & S2).
  { case_decide.
    - destruct (call1D_is_Some s1 krmssum m
        (fun h => TH1F.Fill h (TH2F.GetBinContent2 hr iz ix))) as [s2 E2].
      { by apply K1. }
      exists s2. split; [done|]. by eapply same2D_call1D.
    - exists s1. split; [done|]. apply same2D_refl. }
  simpl. rewrite S2, S1, Ho. simpl. by case_decide.
Qed.

Lemma finalize_gain_total kmean krms koccup kmeansum krmssum s m :
  accumulator kmean -> accumulator krms -> accumulator koccup ->
  is_Some (hist2D s kmean m) -> is_Some (hist2D s krms m) -> is_Some (hist2D s koccup m) ->
  is_Some (hist1D s kmeansum m) -> is_Some (hist1D s krmssum m) ->
  is_Some (finalize_gain kmean krms koccup kmeansum krmssum s m).
Proof.
  intros Am Ar Ao Hm Hr Ho Hms Hrs. unfold finalize_gain.
  destruct Hm as [hm Hm]. rewrite Hm.
  pose (ok := fun s' : RawQcTask =>
    is_Some (hist2D s' kmean m) /\ is_Some (hist2D s' krms m) /\
    is_Some (hist2D s' koccup m) /\
    is_Some (hist1D s' kmeansum m) /\ is_Some (hist1D s' krmssum m)).
  assert (Hok : forall s1 s2, keeps s1 s2 -> ok s1 -> ok s2).
  { intros s1 s2 (_ & _ & K2 & K1) ([? E1] & [? E2] & [? E3] & ? & ?).
    destruct (K2 _ _ _ E1) as (? & ? & _). destruct (K2 _ _ _ E2) as (? & ? & _).
    destruct (K2 _ _ _ E3) as (? & ? & _). repeat split; eauto. }
  assert (ok s) as Hs by (repeat split; eauto).
  destruct (call2D_is_Some s kmean m (fun h => TH2F.Divide h (hist2D s koccup m)))
    as [s1 E1]; [by eexists|].
  unfold Divide2D. rewrite E1. simpl.
  assert (ok s1) as Hs1 by (eapply Hok, Hs; eapply keeps_call2D, E1; shape_tac).
  destruct (call2D_is_Some s1 krms m (fun h => TH2F.Divide h (hist2D s1 koccup m)))
    as [s2 E2]; [apply Hs1|].
  rewrite E2. simpl.
  assert (ok s2) as Hs2 by (eapply Hok, Hs1; eapply keeps_call2D, E2; shape_tac).
  destruct (call1D_is_Some s2 kmeansum m TH1F.Reset) as [s3 E3]; [apply Hs2|].
  rewrite E3. simpl.
  assert (ok s3) as Hs3 by (eapply Hok, Hs2; eapply keeps_call1D, E3).
  destruct (call1D_is_Some s3 krmssum m TH1F.Reset) as [s4 E4]; [apply Hs3|].
  rewrite E4. simpl.
  assert (ok s4) as Hs4 by (eapply Hok, Hs3; eapply keeps_call1D, E4).
  destruct (foldM_total (fun acc : RawQcTask * (Qc * Qc) => ok acc.1)
              (fun acc iz =>
                 foldM (fun acc ix => scan_cell kmean krms koccup kmeansum krmssum m acc iz ix)
                       acc (seqZ 1 56)) (seqZ 1 64)) with (s := (s4, (Qc_of_Z 1000000000, 0%Qc)))
    as ([s5 [occMin occMax]] & E5 & Hs5); [|done|].
  { intros acc iz _ Hacc.
    apply (foldM_total (fun acc : RawQcTask * (Qc * Qc) => ok acc.1)); [|done].
    intros acc1 ix _ (? & ? & ? & ? & ?).
    destruct (scan_cell_total kmean krms koccup kmeansum krmssum m acc1 iz ix)
      as [acc2 E]; try done.
    exists acc2. split; [done|]. eapply Hok; [|repeat split; eassumption].
    eapply quiet_keeps, quiet_scan_cell, E. }
  rewrite E5. simpl. simpl in Hs5.
  destruct (call2D_is_Some s5 koccup m (fun h => TH2F.SetMinimum h occMin)) as [s6 E6];
    [apply Hs5|].
  rewrite E6. simpl.
  assert (ok s6) as Hs6 by (eapply Hok, Hs5; eapply keeps_call2D, E6; shape_tac).
  apply call2D_is_Some, Hs6.
Qed.

Lemma finalize_module_total s m :
  pedestal_ready s -> 0 <= m < 4 ->
  exists s', finalize_module s m = Some s' /\ pedestal_ready s'.
Proof.
  intros Hr Hm.
  assert (Hex : forall s1, pedestal_ready s1 ->
            (forall kv ko, In (kv, ko) pedestal_pairs ->
               is_Some (hist2D s1 kv m) /\ is_Some (hist2D s1 ko m)) /\
            (forall k, In k pedestal_summaries -> is_Some (hist1D s1 k m))).
  { intros s1 Hr1. split.
    - intros kv ko Hp.
      destruct (pedestal_ready_pair s1 kv ko m Hr1 Hm Hp) as (hv & ho & -> & -> & _).
      split; by eexists.
    - intros k Hk. by apply pedestal_ready_summary. }
  unfold finalize_module.
  destruct (Hex s Hr) as [H2 H1].
  destruct (finalize_gain_total kHGmeanM1 kHGrmsM1 kHGoccupM1
              kHGmeanSummaryM1 kHGrmsSummaryM1 s m) as [s1 E1];
    try (split; discriminate);
    try (apply (H2 kHGmeanM1 kHGoccupM1); simpl; tauto);
    try (apply (H2 kHGrmsM1 kHGoccupM1); simpl; tauto);
    try (apply H1; simpl; tauto).
  rewrite E1. simpl.
  assert (pedestal_ready s1) as Hr1.
  { eapply pedestal_ready_keeps, Hr. eapply quiet_keeps, quiet_finalize_gain, E1;
      split; discriminate. }
  destruct (Hex s1 Hr1) as [H2' H1'].
  destruct (finalize_gain_total kLGmeanM1 kLGrmsM1 kLGoccupM1
              kLGmeanSummaryM1 kLGrmsSummaryM1 s1 m) as [s2 E2];
    try (split; discriminate);
    try (apply (H2' kLGmeanM1 kLGoccupM1); simpl; tauto);
    try (apply (H2' kLGrmsM1 kLGoccupM1); simpl; tauto);
    try (apply H1'; simpl; tauto).
  exists s2. split; [done|].
  eapply pedestal_ready_keeps, Hr1. eapply quiet_keeps, quiet_finalize_gain, E2;
    split; discriminate.
Qed.

(** The cells of the Pedestal grids after the modules of [l] are
    materialized. *)
Lemma finalize_fold_cells l :
  NoDup l -> (forall m, m ∈ l -> 0 <= m < 4) ->
  forall s, pedestal_ready s ->
  exists s', foldM finalize_module s l = Some s' /\ pedestal_ready s' /\
    forall kv ko m i v n, In (kv, ko) pedestal_pairs ->
      cell2D s kv m i = Some v -> cell2D s ko m i = Some n ->
      cell2D s' kv m i = Some (if decide (m ∈ l) then div_cell v n else v) /\
      cell2D s' ko m i = Some n.
Proof.
  induction l as [|a l IH]; intros Hnd Hl s Hr; cbn [foldM].
  - exists s. split; [done|]. split; [done|]. intros kv ko m i v n _ Hv Hn.
    rewrite decide_False by apply not_elem_of_nil. done.
  - apply NoDup_cons in Hnd as [Hal Hnd].
    destruct (finalize_module_total s a Hr) as (s1 & E1 & Hr1);
      [apply Hl, list_elem_of_here|].
    rewrite E1.
    destruct (IH Hnd (fun m Hm => Hl m (list_elem_of_further _ _ _ Hm)) s1 Hr1)
      as (s' & E' & Hr' & Hcells).
    exists s'. split; [done|]. split; [done|].
    intros kv ko m i v n Hp Hv Hn.
    destruct (finalize_module_cells s a s1 Hr (Hl a (list_elem_of_here _ _)) E1
                kv ko m i v n Hp Hv Hn) as [Hv1 Hn1].
    destruct (Hcells kv ko m i _ n Hp Hv1 Hn1) as [Hv' Hn']. split; [|done].
    rewrite Hv'. f_equal. destruct (decide (m = a)) as [->|Hne].
    + rewrite decide_False by done. by rewrite decide_True by apply list_elem_of_here.
    + destruct (decide (m ∈ l)).
      * by rewrite decide_True by by apply list_elem_of_further.
      * rewrite decide_False; [done|]. intros [?|?]%elem_of_cons; done.
Qed.

End Finalize.

(** [chi2_only s s']: only the chi2 sums may differ between [s] and [s']. *)
Definition chi2_only (s s' : RawQcTask) : Prop :=
  forall k m, k <> kChi2M1 -> hist2D s' k m = hist2D s k m.

Lemma chi2_only_refl s : chi2_only s s.
Proof. by intros k m _. Qed.

Lemma chi2_only_trans s1 s2 s3 : chi2_only s1 s2 -> chi2_only s2 s3 -> chi2_only s1 s3.
Proof. intros H1 H2 k m Hk. by rewrite H2, H1. Qed.

Lemma chi2_only_cell s s' k m i : chi2_only s s' -> k <> kChi2M1 -> cell2D s' k m i = cell2D s k m i.
Proof. intros Hc Hk. unfold cell2D. by rewrite Hc. Qed.

Section Unfinalize.

Context `{Collaborators}.

Lemma endOfCycle_chi2_spec s :
  exists s', endOfCycle_chi2 s = Some s' /\ quiet s s' /\ chi2_only s s'.
Proof.
  assert (Hfold : forall l s0, exists s',
            foldM (fun s imod =>
                     match hist2D s kChi2M1 imod with
                     | Some _ => Divide2D s kChi2M1 kChi2NormM1 imod
                     | None => Some s
                     end) s0 l = Some s' /\ chi2_only s0 s').
  { induction l as [|m l IH]; intros s0; cbn [foldM].
    - exists s0. split; [done|apply chi2_only_refl].
    - destruct (hist2D s0 kChi2M1 m) as [h|] eqn:Hh.
      + destruct (call2D_is_Some s0 kChi2M1 m
          (fun h => TH2F.Divide h (hist2D s0 kChi2NormM1 m))) as [s1 E1]; [by eexists|].
        unfold Divide2D. rewrite E1. destruct (IH s1) as (s' & E' & Hc).
        exists s'. split; [done|]. eapply chi2_only_trans; [|done].
        intros k m' Hk. eapply call2D_other; [done|congruence].
      + apply IH. }
  unfold endOfCycle_chi2.
  destruct (mCheckChi2 s) eqn:Hc; [|exists s; split; [done|split; [apply quiet_refl|apply chi2_only_refl]]].
  destruct (negb (mFinalized s)) eqn:Hf;
    [|exists s; split; [done|split; [apply quiet_refl|apply chi2_only_refl]]].
  destruct (Hfold modules s) as (s' & E & Hc'). exists s'. split; [done|]. split; [|done].
  apply quiet_endOfCycle_chi2. unfold endOfCycle_chi2. by rewrite Hc, Hf.
Qed.

Lemma startOfCycle_chi2_spec s :
  mMode s = 1 ->
  exists s', startOfCycle_chi2 s = Some s' /\ quiet s s' /\ chi2_only s s'.
Proof.
  intros Hm.
  assert (Hfold : forall l s0, exists s',
            foldM (fun s imod =>
                     match hist2D s kChi2M1 imod with
                     | Some _ => Multiply2D s kChi2M1 kChi2NormM1 imod
                     | None => Some s
                     end) s0 l = Some s' /\ chi2_only s0 s' /\ quiet s0 s').
  { induction l as [|m l IH]; intros s0; cbn [foldM].
    - exists s0. split; [done|]. split; [apply chi2_only_refl|apply quiet_refl].
    - destruct (hist2D s0 kChi2M1 m) as [h|] eqn:Hh.
      + destruct (call2D_is_Some s0 kChi2M1 m
          (fun h => TH2F.Multiply h (hist2D s0 kChi2NormM1 m))) as [s1 E1]; [by eexists|].
        unfold Multiply2D. rewrite E1. destruct (IH s1) as (s' & E' & Hc & Hq).
        exists s'. split; [done|]. split.
        * eapply chi2_only_trans; [|done].
          intros k m' Hk. eapply call2D_other; [done|congruence].
        * eapply quiet_trans; [|done].
          eapply quiet_call2D; [done|split; discriminate|shape_tac].
      + apply IH. }
  unfold startOfCycle_chi2.
  destruct (mCheckChi2 s); [|exists s; split; [done|split; [apply quiet_refl|apply chi2_only_refl]]].
  destruct (mFinalized s); [|exists s; split; [done|split; [apply quiet_refl|apply chi2_only_refl]]].
  destruct (Hfold modules s) as (s' & -> & Hc & Hq). simpl.
  assert (mMode s' = 1) as Hm' by (destruct Hq as [[(-> & _) _] _]; done).
  rewrite decide_False by (intros Hne; by apply Hne).
  exists s'. by split.
Qed.

(** With the Pedestal histograms in place, the null checks of lines 182 and
    186 pass and the loop body of [startOfCycle] is that of
    [FillPedestalHistograms]. *)
Lemma unfinalize_module_restore s m :
  pedestal_ready s -> 0 <= m < 4 -> unfinalize_module s m = restore_module s m.
Proof.
  intros Hr Hm.
  destruct (pedestal_ready_pair s kHGmeanM1 kHGoccupM1 m Hr Hm) as (hm & _ & Hhm & _);
    [simpl; tauto|].
  destruct (pedestal_ready_pair s kLGmeanM1 kLGoccupM1 m Hr Hm) as (lm & _ & Hlm & _);
    [simpl; tauto|].
  unfold unfinalize_module, restore_module. rewrite Hhm.
  destruct (Multiply2D s kHGmeanM1 kHGoccupM1 m) as [s1|] eqn:E1; [|done]. simpl.
  destruct (Multiply2D s1 kHGrmsM1 kHGoccupM1 m) as [s2|] eqn:E2; [|done]. simpl.
  unfold Multiply2D in E1, E2.
  rewrite (call2D_lookup _ _ _ _ _ E2), decide_False by done.
  rewrite (call2D_lookup _ _ _ _ _ E1), decide_False by done.
  by rewrite Hlm.
Qed.

Lemma unfinalize_fold_restore l :
  (forall m, m ∈ l -> 0 <= m < 4) ->
  forall s, pedestal_ready s -> foldM unfinalize_module s l = foldM restore_module s l.
Proof.
  induction l as [|a l IH]; intros Hl s Hr; cbn [foldM]; [done|].
  rewrite unfinalize_module_restore by (done || apply Hl, list_elem_of_here).
  destruct (restore_module s a) as [s1|] eqn:E1; [|done].
  apply IH; [intros m Hin; by apply Hl, list_elem_of_further|].
  eapply pedestal_ready_keeps; [|done]. eapply quiet_keeps, quiet_restore_module, E1.
Qed.

Lemma modules_range m : m ∈ modules -> 0 <= m < 4.
Proof. intros Hin. by apply modules_spec, list_elem_of_In. Qed.

Lemma modules_NoDup : NoDup modules.
Proof.
  unfold modules. repeat (apply NoDup_cons; split); [..|apply NoDup_nil_2];
    rewrite ?elem_of_cons, ?elem_of_nil; lia.
Qed.

(** The two boundaries in a row, cell by cell. *)
Lemma pedestal_boundaries_cells (s : RawQcTask) :
  mMode s = 1 -> mFinalized s = false -> pedestal_ready s ->
  exists s1 s2,
    endOfCycle s = Some s1 /\ mFinalized s1 = true /\
    startOfCycle s1 = Some s2 /\ mFinalized s2 = false /\
    forall kv ko m i v n, In (kv, ko) pedestal_pairs ->
      cell2D s kv m i = Some v -> cell2D s ko m i = Some n ->
      cell2D s1 kv m i = Some (div_cell v n) /\ cell2D s1 ko m i = Some n /\
      cell2D s2 kv m i = Some (mul_cell (div_cell v n) n) /\ cell2D s2 ko m i = Some n.
Proof.
  intros Hm Hf Hr.
  destruct (endOfCycle_chi2_spec s) as (sa & Ea & Qa & Ca).
  assert (pedestal_ready sa) as Hra by (eapply pedestal_ready_keeps, Hr; by apply quiet_keeps).
  destruct (finalize_fold_cells modules modules_NoDup modules_range sa Hra)
    as (sb & Eb & Hrb & Cb).
  assert (mMode sa = 1 /\ mFinalized sa = false) as [Hma Hfa].
  { destruct Qa as [[(-> & _) _] ->]. done. }
  assert (mMode sb = 1) as Hmb.
  { pose proof (quiet_foldM _ _ _ _ quiet_finalize_module Eb) as [[(-> & _) _] _]. done. }
  set (s1 := set_mFinalized true sb).
  assert (endOfCycle s = Some s1) as E1.
  { unfold endOfCycle. rewrite Ea. cbn [mbind option_bind].
    rewrite decide_True by done. rewrite Hfa, Eb. cbn [mbind option_bind].
    unfold endOfCycle_LED. rewrite decide_False; [done|]. cbn [mMode set_mFinalized].
    rewrite Hmb. done. }
  assert (pedestal_ready s1) as Hr1 by exact Hrb.
  destruct (startOfCycle_chi2_spec s1 Hmb) as (sc & Ec & Qc' & Cc).
  assert (pedestal_ready sc) as Hrc by (eapply pedestal_ready_keeps, Hr1; by apply quiet_keeps).
  assert (mMode sc = 1 /\ mFinalized sc = true) as [Hmc Hfc].
  { destruct Qc' as [[(-> & _) _] ->]. done. }
  destruct (restore_fold_total sc Hrc) as (sd & Ed & _).
  exists s1, (set_mFinalized false sd). split; [done|]. split; [done|]. split.
  { unfold startOfCycle. rewrite Ec. cbn [mbind option_bind].
    rewrite decide_True by done. rewrite Hfc.
    rewrite (unfinalize_fold_restore modules modules_range sc Hrc), Ed. done. }
  split; [done|]. intros kv ko m i v n Hp Hv Hn.
  assert (kv <> kChi2M1 /\ ko <> kChi2M1) as [Hkv Hko].
  { destruct (pedestal_pair_cases _ _ Hp) as [[-> ->]|[[-> ->]|[[-> ->]|[-> ->]]]]; done. }
  assert (m ∈ modules) as Hin.
  { apply list_elem_of_In, modules_spec. unfold cell2D in Hv.
    apply bind_Some in Hv as (h & Hh & _). by eapply hist2D_range. }
  rewrite <- (chi2_only_cell s sa kv m i Ca Hkv) in Hv.
  rewrite <- (chi2_only_cell s sa ko m i Ca Hko) in Hn.
  destruct (Cb kv ko m i v n Hp Hv Hn) as [Hv1 Hn1]. rewrite decide_True in Hv1 by done.
  split; [exact Hv1|]. split; [exact Hn1|].
  change (cell2D sb kv m i) with (cell2D s1 kv m i) in Hv1.
  change (cell2D sb ko m i) with (cell2D s1 ko m i) in Hn1.
  rewrite <- (chi2_only_cell s1 sc kv m i Cc Hkv) in Hv1.
  rewrite <- (chi2_only_cell s1 sc ko m i Cc Hko) in Hn1.
  exact (restored_cell sc sd kv ko m i _ n (restore_fold_lookup _ _ Ed) Hrc Hp Hv1 Hn1).
Qed.


End Unfinalize.

(** ** The running mean of the Physics rule *)

Lemma FindBin_shape (h h' : TH2F.t) (x y : Qc) :
  shape h' = shape h -> TH2F.FindBin h' x y = TH2F.FindBin h x y.
Proof. unfold shape, TH2F.FindBin. by intros [= -> -> _]. Qed.

Lemma fNcells_shape (h h' : TH2F.t) : shape h' = shape h -> TH2F.fNcells h' = TH2F.fNcells h.
Proof. unfold shape, TH2F.fNcells. by intros [= -> -> _]. Qed.

Lemma length_shape (h h' : TH2F.t) :
  shape h' = shape h -> length (TH2F.fArray h') = length (TH2F.fArray h).
Proof. unfold shape. by intros [= _ _ ->]. Qed.

(** The histograms of module index [m] are there as [CreatePhysicsHistograms]
    builds them: the occupancy grid well formed, the mean-energy grid with
    the same binning. *)
Definition physics_ready (s : RawQcTask) (m : Z) : Prop :=
  exists ho he ht hs,
    hist2D s kCellOccupM1 m = Some ho /\ hist2D s kCellEM1 m = Some he /\
    hist2D s kTimeEM1 m = Some ht /\ hist1D s kCellSpM1 m = Some hs /\
    TH2F.wf ho /\ shape he = shape ho.

(** The global bin of [relid] in the occupancy grid of its module. *)
Definition physics_bin (s : RawQcTask) (relid : Z * Z * Z) : Z :=
  let '(r0, r1, r2) := relid in
  from_option (fun h => TH2F.FindBin h (Qc_of_Z r1 - half) (Qc_of_Z r2 - half)) 0
              (hist2D s kCellOccupM1 (r0 - 1)).

Definition occupancy (s : RawQcTask) (m bin : Z) : Qc :=
  from_option (fun h => TH2F.GetBinContent h bin) 0%Qc (hist2D s kCellOccupM1 m).

Definition mean_energy (s : RawQcTask) (m bin : Z) : Qc :=
  from_option (fun h => TH2F.GetBinContent h bin) 0%Qc (hist2D s kCellEM1 m).

Section Physics.

Context `{Collaborators}.

Local Open Scope Qc_scope.

Definition sum_energy (cs : list Cell) : Qc :=
  foldr (fun c acc => physics_energy c + acc) 0 cs.

(** One accepted record: occupancy and mean energy of its cell afterwards. *)
Lemma physics_cell_accepted (s : RawQcTask) (c : Cell) (r0 r1 r2 : Z) :
  absToRelNumbering (getAbsId c) = (r0, r1, r2) ->
  kOcccupancyTh < physics_energy c ->
  physics_ready s (r0 - 1) ->
  let m := (r0 - 1)%Z in
  let b := physics_bin s (r0, r1, r2) in
  exists s',
    physics_cell s c = Some s' /\ physics_ready s' m /\
    physics_bin s' (r0, r1, r2) = b /\
    occupancy s' m b = occupancy s m b + 1 /\
    mean_energy s' m b
    = if decide (0 < occupancy s m b)
      then (physics_energy c + mean_energy s m b * occupancy s m b) / (occupancy s m b + 1)
      else physics_energy c.
Proof.
  intros Hdec Hth (ho & he & ht & hs & Ho & He & Ht & Hs & Hwf & Hsh) m b. subst m.
  unfold physics_cell. rewrite decide_True by done. rewrite Hdec.
  rewrite Ho. cbn [mbind option_bind].
  assert (b = TH2F.FindBin ho (Qc_of_Z r1 - half) (Qc_of_Z r2 - half)) as Hb.
  { unfold b, physics_bin. by rewrite Ho. }
  rewrite <- Hb.
  pose proof (TH2F_FindBin_range ho (Qc_of_Z r1 - half) (Qc_of_Z r2 - half) Hwf) as Hr.
  pose proof (TH2F_FindBin_lookup ho (Qc_of_Z r1 - half) (Qc_of_Z r2 - half) Hwf) as Hl.
  rewrite <- Hb in Hr, Hl.
  assert (Hm : (0 <= r0 - 1 < 4)%Z) by by eapply hist2D_range.
  set (n := TH2F.GetBinContent ho b).
  set (emean := if decide (0 < n)
                then (physics_energy c + TH2F.GetBinContent he b * n) / (n + 1)
                else physics_energy c).
  assert ((if decide (0 < n)
           then hE ← hist2D s kCellEM1 (r0 - 1)%Z;
                Some ((physics_energy c + TH2F.GetBinContent hE b * n) / (n + 1))
           else Some (physics_energy c)) = Some emean) as ->.
  { unfold emean. case_decide; [by rewrite He|done]. }
  cbn [mbind option_bind]. unfold call2D, call1D.
  rewrite He. cbn [mbind option_bind].
  rewrite hist2D_put2D_ne, Ho by done. cbn [mbind option_bind].
  rewrite hist2D_put2D_ne by done. rewrite hist2D_put2D_ne, Ht by done.
  cbn [mbind option_bind].
  rewrite !hist1D_put2D, Hs. cbn [mbind option_bind].
  eexists. split; [done|].
  unfold physics_ready, physics_bin, occupancy, mean_energy.
  rewrite !hist2D_put1D, !hist1D_put1D_eq by done.
  rewrite hist2D_put2D_eq by done.
  rewrite !(hist2D_put2D_ne _ kTimeEM1) by done.
  rewrite hist2D_put2D_eq by done.
  rewrite (hist2D_put2D_ne _ kCellOccupM1 _ _ kCellEM1) by done.
  rewrite hist2D_put2D_eq by done. rewrite Ho, He.
  cbn [from_option]. split; [|split; [|split]].
  - do 4 eexists. do 4 (split; [reflexivity|]). split.
    + eapply shape_wf, Hwf. apply shape_AddBinContent.
    + by rewrite shape_SetBinContent, shape_AddBinContent.
  - rewrite (FindBin_shape ho) by apply shape_AddBinContent. done.
  - by apply GetBinContent_AddBinContent.
  - rewrite GetBinContent_SetBinContent; [done|..].
    + by rewrite (fNcells_shape ho he Hsh).
    + by rewrite (length_shape ho he Hsh).
Qed.

(** The loop over accepted records of one cell keeps the sum of the energies
    in mean * occupancy. *)
Lemma physics_fold_mean (a r0 r1 r2 : Z) (cs : list Cell) :
  absToRelNumbering a = (r0, r1, r2) ->
  Forall (fun c => getAbsId c = a /\ kOcccupancyTh < physics_energy c) cs ->
  forall (s : RawQcTask) (k : Z) (S : Qc),
    physics_ready s (r0 - 1) -> (0 <= k)%Z ->
    occupancy s (r0 - 1) (physics_bin s (r0, r1, r2)) = Qc_of_Z k ->
    (k = 0%Z -> S = 0) ->
    ((0 < k)%Z -> mean_energy s (r0 - 1) (physics_bin s (r0, r1, r2)) * Qc_of_Z k = S) ->
    exists s',
      foldM physics_cell s cs = Some s' /\
      occupancy s' (r0 - 1) (physics_bin s (r0, r1, r2)) = Qc_of_Z (k + Z.of_nat (length cs)) /\
      ((k + Z.of_nat (length cs) = 0)%Z -> S + sum_energy cs = 0) /\
      ((0 < k + Z.of_nat (length cs))%Z ->
       mean_energy s' (r0 - 1) (physics_bin s (r0, r1, r2))
       * Qc_of_Z (k + Z.of_nat (length cs)) = S + sum_energy cs).
Proof.
  intros Hdec Hcs. induction Hcs as [|c cs [Ha Hth] _ IH]; intros s k S Hr Hk Hocc H0 Hpos.
  - exists s. cbn [foldM length sum_energy foldr]. rewrite Z.add_0_r, Qcplus_0_r. done.
  - rewrite <- Ha in Hdec.
    destruct (physics_cell_accepted s c r0 r1 r2 Hdec Hth Hr) as (s1 & E1 & Hr1 & Hb1 & Ho1 & Hm1).
    rewrite Ha in Hdec. cbn [foldM]. rewrite E1.
    rewrite Hocc in Ho1, Hm1.
    destruct (IH s1 (k + 1)%Z (S + physics_energy c)) as (s' & E' & Ho' & H0' & Hp');
      try done; try lia.
    + rewrite Hb1, Ho1. by rewrite Z2Qc_inj_add, Z2Qc_inj_1.
    + intros _. rewrite Hb1, Hm1. rewrite Z2Qc_inj_add, Z2Qc_inj_1.
      destruct (decide (k = 0%Z)) as [->|Hne].
      * rewrite decide_False.
        2:{ rewrite Z2Qc_inj_0. apply Qcle_not_lt, Qcle_refl. }
        rewrite (H0 eq_refl), Z2Qc_inj_0. ring.
      * rewrite decide_True.
        2:{ rewrite <- Z2Qc_inj_0. apply (proj1 (Z2Qc_inj_lt 0 k)). lia. }
        rewrite <- (Hpos ltac:(lia)).
        assert (Qc_of_Z k + 1 <> 0) as Hk1.
        { rewrite <- Z2Qc_inj_1, <- Z2Qc_inj_add, <- Z2Qc_inj_0. intros E%Z2Qc_inj. lia. }
        field. exact Hk1.
    + rewrite Hb1 in Ho', Hp'.
      replace (k + Z.of_nat (length (c :: cs)))%Z with (k + 1 + Z.of_nat (length cs))%Z
        by (cbn [length]; lia).
      exists s'. split; [done|]. split; [done|].
      cbn [sum_energy foldr]. fold (sum_energy cs).
      replace (S + (physics_energy c + sum_energy cs)) with (S + physics_energy c + sum_energy cs)
        by ring.
      split; [intros; lia|done].
Qed.


End Physics.

(** ** Records and the decoding of their address *)

Lemma Fill_fst_FindBin (h : TH2F.t) (x y w : Qc) :
  (TH2F.Fill h x y w).1 = TH2F.AddBinContent h (TH2F.FindBin h x y) w.
Proof.
  unfold TH2F.Fill, TH2F.FindBin.
  replace (TAxis.FindBin (TH2F.fYaxis h) y * (TAxis.fNbins (TH2F.fXaxis h) + 2)
           + TAxis.FindBin (TH2F.fXaxis h) x)
    with (TAxis.FindBin (TH2F.fXaxis h) x
          + (TAxis.fNbins (TH2F.fXaxis h) + 2) * TAxis.FindBin (TH2F.fYaxis h) y) by lia.
  by repeat case_decide.
Qed.

(** The occupancy grid of a gain in Pedestal mode, and its content. *)
Definition pedestal_occup (highGain : bool) : Hist2D :=
  if highGain then kHGoccupM1 else kLGoccupM1.

Definition pedestal_occupancy (s : RawQcTask) (highGain : bool) (m bin : Z) : Qc :=
  from_option (fun h => TH2F.GetBinContent h bin) 0%Qc (hist2D s (pedestal_occup highGain) m).

Definition pedestal_bin (s : RawQcTask) (highGain : bool) (relid : Z * Z * Z) : Z :=
  let '(r0, r1, r2) := relid in
  from_option (fun h => TH2F.FindBin h (Qc_of_Z r1 - half) (Qc_of_Z r2 - half)) 0
              (hist2D s (pedestal_occup highGain) (r0 - 1)).

(** The occupancy grids of module index [m] are well formed. *)
Definition pedestal_wf (s : RawQcTask) (m : Z) : Prop :=
  forall g h, hist2D s (pedestal_occup g) m = Some h -> TH2F.wf h.

Section Decoding.

Context `{Collaborators}.

Local Open Scope Qc_scope.

(** A loop over one trigger record that spans the batch consumes every
    record, in order. *)
Lemma for_cells_whole_batch body (s : RawQcTask) (cells : list Cell) :
  for_cells body s cells [mkTriggerRecord 0 (Z.of_nat (length cells))] = foldM body s cells.
Proof.
  unfold for_cells. cbn [foldM getFirstEntry getNumberOfObjects].
  assert (Hgen : forall pre post s0,
            cells = pre ++ post ->
            foldM (fun s i => c ← span_at cells i; body s c) s0
                  (seqZ (Z.of_nat (length pre)) (Z.of_nat (length post)))
            = foldM body s0 post).
  { intros pre post. revert pre. induction post as [|c post IH]; intros pre s0 Hc.
    - by rewrite seqZ_nil by done.
    - rewrite seqZ_cons by (cbn [length]; lia). cbn [foldM].
      assert (span_at cells (Z.of_nat (length pre)) = Some c) as ->.
      { unfold span_at. rewrite decide_True by lia. rewrite Nat2Z.id, Hc.
        by rewrite lookup_app_r, Nat.sub_diag by lia. }
      cbn [mbind option_bind]. destruct (body s0 c) as [s1|]; [|done].
      specialize (IH (pre ++ [c]) s1). rewrite length_app in IH. cbn [length] in *.
      replace (Z.succ (Z.of_nat (length pre))) with (Z.of_nat (length pre + 1)) by lia.
      replace (Z.pred (Z.of_nat (S (length post)))) with (Z.of_nat (length post)) by lia.
      apply IH. by rewrite <- app_assoc. }
  specialize (Hgen [] cells s eq_refl). cbn [length] in Hgen.
  change (Z.of_nat 0) with 0%Z in Hgen. rewrite Hgen.
  by destruct (foldM body s cells).
Qed.

Lemma pedestal_cell_accumulated (s : RawQcTask) (c : Cell) (r0 r1 r2 : Z) :
  absToRelNumbering (getAbsId c) = (r0, r1, r2) ->
  pedestal_ready s -> (0 <= r0 - 1 < 4)%Z -> pedestal_wf s (r0 - 1) ->
  let g := getHighGain c in
  let b := pedestal_bin s g (r0, r1, r2) in
  exists s', pedestal_cell s c = Some s' /\
    pedestal_occupancy s' g (r0 - 1) b = pedestal_occupancy s g (r0 - 1) b + 1.
Proof.
  intros Hdec Hr Hm Hwf g b. unfold pedestal_cell. rewrite Hdec. subst g b.
  assert (Hex : forall kv ko, In (kv, ko) pedestal_pairs ->
            exists hv ho, hist2D s kv (r0 - 1) = Some hv /\ hist2D s ko (r0 - 1) = Some ho).
  { intros kv ko Hp. destruct (pedestal_ready_pair s kv ko _ Hr Hm Hp) as (hv & ho & ? & ? & _).
    eauto. }
  unfold pedestal_occupancy, pedestal_bin, Fill2D, call2D.
  destruct (getHighGain c); cbn [pedestal_occup].
  - destruct (Hex kHGmeanM1 kHGoccupM1) as (hm & ho & Em & Eo); [simpl; tauto|].
    destruct (Hex kHGrmsM1 kHGoccupM1) as (hr & ? & Er & _); [simpl; tauto|].
    rewrite Em. cbn [mbind option_bind]. rewrite hist2D_put2D_ne, Er by done.
    cbn [mbind option_bind]. rewrite !hist2D_put2D_ne, Eo by done. cbn [mbind option_bind].
    eexists. split; [done|]. rewrite hist2D_put2D_eq by done. cbn [from_option].
    rewrite Fill_fst_FindBin.
    pose proof (Hwf true ho Eo) as Hw.
    apply GetBinContent_AddBinContent;
      [by apply TH2F_FindBin_range|by apply TH2F_FindBin_lookup].
  - destruct (Hex kLGmeanM1 kLGoccupM1) as (hm & ho & Em & Eo); [simpl; tauto|].
    destruct (Hex kLGrmsM1 kLGoccupM1) as (hr & ? & Er & _); [simpl; tauto|].
    rewrite Em. cbn [mbind option_bind]. rewrite hist2D_put2D_ne, Er by done.
    cbn [mbind option_bind]. rewrite !hist2D_put2D_ne, Eo by done. cbn [mbind option_bind].
    eexists. split; [done|]. rewrite hist2D_put2D_eq by done. cbn [from_option].
    rewrite Fill_fst_FindBin.
    pose proof (Hwf false ho Eo) as Hw.
    apply GetBinContent_AddBinContent;
      [by apply TH2F_FindBin_range|by apply TH2F_FindBin_lookup].
Qed.


End Decoding.

(** * Examples

    The tasks below are built by the task's own functions, with the
    collaborators of [phos]. *)

(** The task right after [InitHistograms], in each mode. *)
Definition physics_task : RawQcTask :=
  default (new_task 0 false) (InitHistograms (new_task 0 false)).

Definition pedestal_task : RawQcTask :=
  default (new_task 1 false) (InitHistograms (new_task 1 false)).

(** The general part of [InitHistograms] alone (lines 98-117). *)
Definition tally_task : RawQcTask :=
  put1D (put2D (put2D (new_task 0 false) kErrorNumber 0 tally_grid) kErrorType 0 tally_grid)
        kBadMapSummary 0 (TH1F.new 4 1%Qc (Qc_of_Z 5)).

(** A Pedestal task whose high-gain mean grid holds 5 in a cell of
    occupancy zero (module 1, row 1, column 1). *)
Definition pedestal_task_5_over_0 : RawQcTask :=
  put2D pedestal_task kHGmeanM1 0
        (TH2F.SetBinContent (TH2F.SetMaximum (TH2F.SetMinimum new_grid 0%Qc) (Qc_of_Z 100))
                            67 (Qc_of_Z 5)).

Lemma pedestal_task_ready : pedestal_ready pedestal_task.
Proof. vm_compute. reflexivity. Qed.

Lemma new_grid_wf : TH2F.wf (TH2F.SetMinimum new_grid 0%Qc).
Proof. repeat split; vm_compute; (reflexivity || discriminate). Qed.

Lemma physics_task_ready (m : Z) : 0 <= m < 4 -> physics_ready physics_task m.
Proof.
  intros Hm. assert (m = 0 \/ m = 1 \/ m = 2 \/ m = 3) as [-> | [-> | [-> | ->]]] by lia;
    (exists (TH2F.SetMinimum new_grid 0%Qc), (TH2F.SetMinimum new_grid 0%Qc);
     do 2 eexists; do 4 (split; [vm_compute; reflexivity|]); split;
     [apply new_grid_wf|reflexivity]).
Qed.

#[local] Existing Instance phos.

(** Two errors of FEE card 3 on DDL 5, with codes 2 and 4. *)
Definition two_errors : list RawReaderError :=
  [mkRawReaderError 3 5 2; mkRawReaderError 3 5 4].

(** One cycle that delivers an error and nothing else. *)
Definition one_cycle : list cycle_call :=
  [StartOfCycle; MonitorData (mkContext [mkRawReaderError 3 5 2] None [] [] []); EndOfCycle].

Definition tally_after_one_cycle : RawQcTask :=
  Eval vm_compute in default tally_task (foldM run_call tally_task one_cycle).

(** A high-gain record at address 0, which is no channel of the detector. *)
Definition cell_at_address_0 : Cell := mkCell 0 (Qc_of_Z 20) 0%Qc true.

(** Witness of C10: a Pedestal task whose flag is set. *)
Lemma endOfCycle_pedestal_idempotent_witness :
  mMode (set_mFinalized true pedestal_task) = 1 /\
  ((mFinalized (set_mFinalized true pedestal_task) = true ->
    endOfCycle (set_mFinalized true pedestal_task) = Some (set_mFinalized true pedestal_task) /\
    endOfActivity (set_mFinalized true pedestal_task) = Some (set_mFinalized true pedestal_task)) /\
   (forall s1, endOfCycle (set_mFinalized true pedestal_task) = Some s1 ->
               endOfActivity s1 = Some s1)).
Proof.
  refine (let Hm := _ in conj Hm (endOfCycle_pedestal_idempotent _ Hm)).
  vm_compute. reflexivity.
Defined.

(** Witness of C4: a high-gain record of energy 5, below the threshold 10. *)
Lemma physics_below_threshold_unchanged_witness :
  (physics_energy (mkCell 1 (Qc_of_Z 5) 0%Qc true) < kOcccupancyTh)%Qc /\
  physics_cell physics_task (mkCell 1 (Qc_of_Z 5) 0%Qc true) = Some physics_task /\
  FillPhysicsHistograms physics_task [mkCell 1 (Qc_of_Z 5) 0%Qc true] [mkTriggerRecord 0 1]
  = Some physics_task.
Proof.
  refine (let Hlt := _ in conj Hlt (physics_below_threshold_unchanged physics_task _ Hlt)).
  vm_compute. reflexivity.
Defined.










(** * Further properties of the task *)

(** ** [reset] and [startOfActivity] *)

Lemma hist2D_reset (s : RawQcTask) (k : Hist2D) (m : Z) :
  hist2D (reset s) k m = TH2F.Reset <$> hist2D s k m.
Proof. unfold hist2D, reset. simpl. case_decide; [apply lookup_fmap|done]. Qed.

Lemma hist1D_reset (s : RawQcTask) (k : Hist1D) (m : Z) :
  hist1D (reset s) k m = TH1F.Reset <$> hist1D s k m.
Proof. unfold hist1D, reset. simpl. case_decide; [apply lookup_fmap|done]. Qed.

(** [startOfActivity] clears the flag and the content of every histogram of
    the bank, one- and two-dimensional, and keeps each histogram with its
    binning and display range; the channel spectra of the LED mode are not in
    the bank and are left as they are. *)
Theorem startOfActivity_clears_bank (s : RawQcTask) :
  mFinalized (startOfActivity s) = false /\
  mMode (startOfActivity s) = mMode s /\
  mSpectra (startOfActivity s) = mSpectra s /\
  (forall k m h, hist2D s k m = Some h ->
     exists h', hist2D (startOfActivity s) k m = Some h' /\
       shape h' = shape h /\ TH2F.fMinimum h' = TH2F.fMinimum h /\
       TH2F.fMaximum h' = TH2F.fMaximum h /\
       forall i, i < length (TH2F.fArray h) -> TH2F.fArray h' !! i = Some 0%Qc)%nat /\
  (forall k m h, hist1D s k m = Some h ->
     exists h', hist1D (startOfActivity s) k m = Some h' /\
       TH1F.fXaxis h' = TH1F.fXaxis h /\
       forall i, i < length (TH1F.fArray h) -> TH1F.fArray h' !! i = Some 0%Qc)%nat /\
  (forall k m, hist2D s k m = None -> hist2D (startOfActivity s) k m = None).
Proof.
  unfold startOfActivity. do 3 (split; [done|]). split; [|split].
  - intros k m h Hh. exists (TH2F.Reset h). rewrite hist2D_reset, Hh. split; [done|].
    split; [unfold shape, TH2F.Reset; simpl; by rewrite length_replicate|].
    do 2 (split; [done|]). intros i Hi. simpl. by apply lookup_replicate_2.
  - intros k m h Hh. exists (TH1F.Reset h). rewrite hist1D_reset, Hh. split; [done|].
    split; [done|]. intros i Hi. simpl. by apply lookup_replicate_2.
  - intros k m Hh. by rewrite hist2D_reset, Hh.
Qed.

(** ** Hardware errors outside the grid of the tally *)

(** An error whose FEE card or DDL is outside the 32 x 15 grid is counted in
    an underflow or overflow cell of the error count, and sets no bit: the
    error-type histogram is left as it is (the bin that [Fill] returns is -1,
    which [SetBinContent] ignores). *)
Theorem error_outside_grid_sets_no_bit (s : RawQcTask) (e : RawReaderError) (s' : RawQcTask) :
  error_ready s ->
  ~ (0 <= getFEC e < 32 /\ 0 <= getDDL e < 15) ->
  monitor_error s e = Some s' ->
  hist2D s' kErrorType 0 = hist2D s kErrorType 0 /\
  exists hn bin, hist2D s kErrorNumber 0 = Some hn /\
    hist2D s' kErrorNumber 0 = Some (TH2F.AddBinContent hn bin 1%Qc) /\
    ~ (exists u l, 0 <= u < 32 /\ 0 <= l < 15 /\ bin = tally_bin u l).
Proof.
  intros (hn & ht & Hn & Ht & Sn & St) Hout Hm. unfold monitor_error in Hm.
  rewrite Hn in Hm. cbn [mbind option_bind] in Hm.
  injection Sn as Hx Hy Hlen.
  set (binx := TAxis.FindBin (TH2F.fXaxis hn) (Qc_of_Z (getFEC e))).
  set (biny := TAxis.FindBin (TH2F.fYaxis hn) (Qc_of_Z (getDDL e))).
  assert (Hbx : 0 <= binx <= 33).
  { unfold binx. rewrite Hx. apply (TAxis_FindBin_range (TAxis.mk 32 0%Qc (Qc_of_Z 32))).
    split; [simpl; lia|reflexivity]. }
  assert (Hby : 0 <= biny <= 16).
  { unfold biny. rewrite Hy. apply (TAxis_FindBin_range (TAxis.mk 15 0%Qc (Qc_of_Z 15))).
    split; [simpl; lia|reflexivity]. }
  assert (Hedge : binx = 0 \/ binx = 33 \/ biny = 0 \/ biny = 16).
  { destruct (decide (0 <= getFEC e < 32)) as [Hu|Hu].
    - destruct (decide (0 <= getDDL e < 15)) as [Hl|Hl]; [tauto|].
      right. right. unfold biny. rewrite Hy. unfold TAxis.FindBin. simpl.
      destruct (decide (Qc_of_Z (getDDL e) < 0)%Qc); [by left|].
      destruct (decide (Qc_of_Z (getDDL e) < Qc_of_Z 15)%Qc) as [Hlt|]; [|by right].
      exfalso. apply Hl. split; [|by apply Z2Qc_inj_lt].
      apply Z2Qc_inj_le. rewrite Z2Qc_inj_0. by apply Qcnot_lt_le.
    - unfold binx. rewrite Hx. unfold TAxis.FindBin. simpl.
      destruct (decide (Qc_of_Z (getFEC e) < 0)%Qc); [by left|].
      destruct (decide (Qc_of_Z (getFEC e) < Qc_of_Z 32)%Qc) as [Hlt|]; [|right; by left].
      exfalso. apply Hu. split; [|by apply Z2Qc_inj_lt].
      apply Z2Qc_inj_le. rewrite Z2Qc_inj_0. by apply Qcnot_lt_le. }
  assert (TH2F.Fill hn (Qc_of_Z (getFEC e)) (Qc_of_Z (getDDL e)) 1%Qc
          = (TH2F.AddBinContent hn (biny * 34 + binx) 1%Qc, -1)) as Hfill.
  { unfold TH2F.Fill. fold binx biny. rewrite Hx, Hy. simpl.
    repeat case_decide; try done; lia. }
  rewrite Hfill in Hm. rewrite hist2D_put2D_ne, Ht in Hm by done.
  cbn [mbind option_bind] in Hm.
  apply bind_Some in Hm as (cont & _ & Hm). apply bind_Some in Hm as (bit & _ & Hm).
  injection Hm as <-.
  assert (TH2F.SetBinContent ht (-1) (Qc_of_Z (Z.lor cont bit)) = ht) as ->.
  { unfold TH2F.SetBinContent. by rewrite decide_False by lia. }
  split.
  - rewrite hist2D_put2D_eq by done. by rewrite Ht.
  - exists hn, (biny * 34 + binx). split; [done|]. split.
    + rewrite hist2D_put2D_ne by done. by rewrite hist2D_put2D_eq.
    + intros (u & l & Hu & Hl & Hbin). unfold tally_bin in Hbin. lia.
Qed.

(** ** The loops over the inputs *)

(** The trigger records that cut a batch into consecutive events of the
    given sizes, from index [first]. *)
Fixpoint consecutive_events (first : Z) (sizes : list nat) : list TriggerRecord :=
  match sizes with
  | [] => []
  | n :: sizes =>
      mkTriggerRecord first (Z.of_nat n) :: consecutive_events (first + Z.of_nat n) sizes
  end.

Lemma foldM_None_at {S A : Type} (f : S -> A -> option S) (l1 l2 : list A) (a : A) (s : S) :
  (forall s0, f s0 a = None) -> foldM f s (l1 ++ a :: l2) = None.
Proof.
  intros Ha. rewrite foldM_app. destruct (foldM f s l1) as [s1|]; [|done].
  cbn [mbind option_bind foldM]. by rewrite Ha.
Qed.

Section Loops.

Context `{Collaborators}.

Lemma for_cells_app body (s : RawQcTask) cells trs1 trs2 :
  for_cells body s cells (trs1 ++ trs2)
  = s1 ← for_cells body s cells trs1; for_cells body s1 cells trs2.
Proof. unfold for_cells. apply foldM_app. Qed.

Lemma for_cells_event body (pre ev post : list Cell) (s : RawQcTask) :
  for_cells body s (pre ++ ev ++ post)
    [mkTriggerRecord (Z.of_nat (length pre)) (Z.of_nat (length ev))]
  = foldM body s ev.
Proof.
  unfold for_cells. cbn [foldM getFirstEntry getNumberOfObjects].
  assert (Hgen : forall ev pre s0,
            foldM (fun s i => c ← span_at (pre ++ ev ++ post) i; body s c) s0
                  (seqZ (Z.of_nat (length pre)) (Z.of_nat (length ev)))
            = foldM body s0 ev).
  { clear. intros ev. induction ev as [|c ev IH]; intros pre s0.
    - by rewrite seqZ_nil by done.
    - rewrite seqZ_cons by (cbn [length]; lia). cbn [foldM].
      assert (span_at (pre ++ (c :: ev) ++ post) (Z.of_nat (length pre)) = Some c) as ->.
      { unfold span_at. rewrite decide_True by lia. rewrite Nat2Z.id.
        by rewrite lookup_app_r, Nat.sub_diag by lia. }
      cbn [mbind option_bind]. destruct (body s0 c) as [s1|]; [|done].
      specialize (IH (pre ++ [c]) s1). rewrite length_app in IH. cbn [length] in *.
      replace (Z.succ (Z.of_nat (length pre))) with (Z.of_nat (length pre + 1)) by lia.
      replace (Z.pred (Z.of_nat (S (length ev)))) with (Z.of_nat (length ev)) by lia.
      rewrite <- IH. by rewrite <- !app_assoc. }
  rewrite Hgen. by destruct (foldM body s ev).
Qed.

(** Trigger records that cut the batch into consecutive events make the two
    nested loops visit every record of the batch once, in the order of the
    batch: the loops are one fold of the body over the records. *)
Theorem for_cells_consecutive_events body (s : RawQcTask) (cells : list Cell)
    (sizes : list nat) :
  foldr Nat.add 0%nat sizes = length cells ->
  for_cells body s cells (consecutive_events 0 sizes) = foldM body s cells.
Proof.
  assert (Hgen : forall sizes pre rest s0,
            foldr Nat.add 0%nat sizes = length rest ->
            for_cells body s0 (pre ++ rest) (consecutive_events (Z.of_nat (length pre)) sizes)
            = foldM body s0 rest).
  { clear. intros sizes. induction sizes as [|n sizes IH]; intros pre rest s0 Hsum.
    - destruct rest; [done|]. simpl in Hsum. lia.
    - cbn [foldr] in Hsum. cbn [consecutive_events].
      rewrite <- (take_drop n rest) at 1.
      assert (length (take n rest) = n) as Hlen by (rewrite length_take; lia).
      change (?tr :: ?trs) with ([tr] ++ trs). rewrite for_cells_app.
      replace (Z.of_nat n) with (Z.of_nat (length (take n rest))) at 1 by (by rewrite Hlen).
      rewrite for_cells_event.
      transitivity (foldM body s0 (take n rest ++ drop n rest)); [|by rewrite take_drop].
      rewrite foldM_app.
      destruct (foldM body s0 (take n rest)) as [s1|]; [|done]. cbn [mbind option_bind].
      rewrite app_assoc.
      replace (Z.of_nat (length pre) + Z.of_nat n)
        with (Z.of_nat (length (pre ++ take n rest))) by (rewrite length_app; lia).
      apply IH. rewrite length_drop. lia. }
  intros Hsum. apply (Hgen sizes [] cells s Hsum).
Qed.

(** A trigger record that reaches outside the span of the cells stops the
    processing: the run does not return a task. *)
Theorem for_cells_outside_span body (s : RawQcTask) (cells : list Cell) (first n : Z) :
  0 < n -> first < 0 \/ Z.of_nat (length cells) < first + n ->
  for_cells body s cells [mkTriggerRecord first n] = None.
Proof.
  intros Hn Hout. unfold for_cells. cbn [foldM getFirstEntry getNumberOfObjects].
  set (i := if decide (first < 0) then first else first + n - 1).
  assert (Hi : first <= i < first + n) by (unfold i; case_decide; lia).
  assert (Hbad : span_at cells i = None).
  { unfold span_at, i. repeat case_decide; try lia; try done.
    apply lookup_ge_None. lia. }
  assert (seqZ first n = seqZ first (i - first) ++ i :: seqZ (i + 1) (first + n - i - 1)) as ->.
  { replace n with ((i - first) + (n - (i - first))) at 1 by lia.
    rewrite seqZ_app by lia. f_equal.
    replace (first + (i - first)) with i by lia.
    rewrite seqZ_cons by lia. f_equal. f_equal; lia. }
  rewrite foldM_None_at; [done|]. intros s0. by rewrite Hbad.
Qed.

(** A fit-quality vector with an odd number of entries ends on an address
    without its chi2: the loop reads past the end of the vector and does not
    return a task. *)
Theorem monitor_chi2_odd_length (s : RawQcTask) (chi2list : list Z) :
  Nat.Odd (length chi2list) -> monitor_chi2 s chi2list = None.
Proof.
  revert s.
  cut (forall n l s, length l = (2 * n + 1)%nat -> monitor_chi2 s l = None).
  { intros Hc s [n Hn]. by apply (Hc n). }
  induction n as [|n IH]; intros l s Hl.
  - destruct l as [|a [|q l]]; try done.
  - destruct l as [|a [|q l]]; try (simpl in Hl; lia).
    cbn [monitor_chi2]. destruct (chi2_pair s a q) as [s1|]; [|done].
    cbn [mbind option_bind]. apply IH. simpl in Hl. lia.
Qed.

(** In LED mode a high-gain record below the occupancy threshold is left out
    of the histograms of the bank, and still enters the spectrum of its
    channel: the result is the task with that one spectrum filled. *)
Theorem led_below_threshold_feeds_spectrum (s : RawQcTask) (c : Cell) (sp : TH1F.t) :
  (physics_energy c < kOcccupancyTh)%Qc ->
  getHighGain c = true -> 1793 <= getAbsId c ->
  mSpectra s !! Z.to_nat (getAbsId c - 1793) = Some sp ->
  FillLEDHistograms s [c] [mkTriggerRecord 0 1]
  = Some (set_mSpectra
            (<[Z.to_nat (getAbsId c - 1793) := TH1F.Fill sp (getEnergy c)]> (mSpectra s)) s).
Proof.
  intros Hlt Hg Ha Hsp.
  pose proof (for_cells_event physics_cell [] [c] [] s) as Hp.
  pose proof (for_cells_event led_cell [] [c] [] s) as Hl.
  cbn [length app] in Hp, Hl. change (Z.of_nat 0) with 0 in *. change (Z.of_nat 1) with 1 in *.
  unfold FillLEDHistograms, FillPhysicsHistograms. rewrite Hp. cbn [foldM].
  assert (physics_cell s c = Some s) as ->.
  { unfold physics_cell. rewrite decide_False; [done|].
    intros Hgt. by apply (Qclt_not_le _ _ Hlt), Qclt_le_weak. }
  cbn [mbind option_bind]. rewrite Hl. cbn [foldM].
  unfold led_cell. rewrite Hg, decide_True by lia. rewrite Hsp. done.
Qed.

(** A high-gain record of a channel below 1793, or past the spectra the task
    holds, has no spectrum: the LED loop does not return a task. *)
Theorem led_cell_without_spectrum (s : RawQcTask) (c : Cell) :
  getHighGain c = true ->
  getAbsId c < 1793 \/ Z.of_nat (length (mSpectra s)) <= getAbsId c - 1793 ->
  led_cell s c = None.
Proof.
  intros Hg Hout. unfold led_cell. rewrite Hg. case_decide; [|done].
  rewrite (proj2 (lookup_ge_None _ _)); [done|]. lia.
Qed.

End Loops.
